(** * db-stress-test: the load-generation and measurement engine

    A shallow embedding of [index.js] (progressive ramp-up) and
    [stress_test.js] (single fixed-concurrency run), and the properties of
    the engine they share: the worker pool that hands out task indices, the
    single unit of work against the [pg] pool, the statistics of a stage,
    the stage verdict, the percentiles and the ramp-up controller; and of
    the code around it: the table setup, the random strings of the payload
    and the task identifiers.

    Conventions.
    - JavaScript numbers that the scripts only ever count or add
      (counters, [Date.now()] values, durations) are integers well below
      2^53, where binary64 arithmetic is exact: they are [nat] or [Z].
      Every division of the scripts is a binary64 division and is a
      primitive [float] here.
    - Node runs one piece of JavaScript at a time; an [async] function gives
      up control only at an [await].  A worker pool is therefore modelled
      by the order in which its atomic pieces run (a schedule); what the
      database answers and when is part of the schedule. *)

From Stdlib Require Import String Ascii ZArith List Bool Arith Lia Floats.
From Stdlib Require Import Permutation Sorted.
From Stdlib Require Import DecimalString DecimalNat DecimalZ.
Import ListNotations.

Set Warnings "-inexact-float,-notation-for-abbreviation".

(* ================================================================== *)
(** * JavaScript values *)
(* ================================================================== *)

(** An integer-valued JavaScript number as the binary64 value the engine
    divides. *)
Definition num_of_Z (z : Z) : float :=
  if (z <? 0)%Z
  then PrimFloat.opp (PrimFloat.of_uint63 (Uint63.of_Z (- z)))
  else PrimFloat.of_uint63 (Uint63.of_Z z).

Definition num_of_nat (n : nat) : float := num_of_Z (Z.of_nat n).

(** [Math.floor] of a number, as the array index it is used for: [None]
    for NaN and the infinities, which index nothing. *)
Definition Math_floor (x : float) : option Z :=
  match Prim2SF x with
  | S754_zero _ => Some 0%Z
  | S754_finite s m e =>
      Some (Z.shiftl (if s then Z.neg m else Z.pos m) e)
  | S754_infinity _ | S754_nan => None
  end.

(** [s.includes(sub)]. *)
Fixpoint includes (sub s : string) : bool :=
  if String.prefix sub s then true
  else match s with
       | EmptyString => false
       | String _ s' => includes sub s'
       end.

(** [arr[i]] for a number [i] that is an integer: [undefined] ([None])
    outside the array. *)
Definition js_index {A : Type} (arr : list A) (i : Z) : option A :=
  if (i <? 0)%Z then None else nth_error arr (Z.to_nat i).

(* ================================================================== *)
(** * The [pg] pool, seen from a unit of work *)
(* ================================================================== *)

(** What a rejected [pool.connect()] or [client.query()] throws: the two
    properties the engine reads.  [code] is [undefined] on errors that the
    pool itself raises (its connection timeout). *)
Record PgError : Type := mkPgError {
  code : option string;
  message : string
}.

(** A client handed out by [pool.connect()]. *)
Definition Client : Type := nat.

Inductive Query : Type := INSERT | SELECT.

(** The calls made on the pool and on its clients, in call order. *)
Inductive PgEvent : Type :=
| PoolConnect (granted : option Client)
| ClientQuery (c : Client) (q : Query)
| ClientRelease (c : Client).

(** What the outside world answers during one unit of work. *)
Record ActionEnv : Type := mkActionEnv {
  now_start : Z;                      (* Date.now() on entry *)
  connect_res : PgError + Client;     (* pool.connect() *)
  insert_res : option PgError;        (* the INSERT; None: resolved *)
  select_res : option PgError;        (* the SELECT; None: resolved *)
  now_end : Z                         (* Date.now() after the SELECT *)
}.

(** The state a unit of work can touch: its local [client] variable, the
    calls made on the pool so far, and whatever module-level object the
    function mutates ([G]). *)
Record Frame (G : Type) : Type := mkFrame {
  client : option Client;
  pg : list PgEvent;
  globals : G
}.
Arguments mkFrame {G} _ _ _.
Arguments client {G} _.
Arguments pg {G} _.
Arguments globals {G} _.

(** How a block ends. *)
Inductive completion (A : Type) : Type :=
| Normal (a : A)
| Throw (e : PgError).
Arguments Normal {A} _.
Arguments Throw {A} _.

Section Effects.
Context {G : Type}.

(** Code that runs on a frame and either completes or throws. *)
Definition M (A : Type) : Type := Frame G -> Frame G * completion A.

Definition ret {A} (a : A) : M A := fun f => (f, Normal a).

Definition bind {A B} (m : M A) (k : A -> M B) : M B :=
  fun f =>
    match m f with
    | (f', Normal a) => k a f'
    | (f', Throw e) => (f', Throw e)
    end.

Definition throw {A} (e : PgError) : M A := fun f => (f, Throw e).

(** [try { body } catch (err) { handler }] *)
Definition try_catch {A} (body : M A) (handler : PgError -> M A) : M A :=
  fun f =>
    match body f with
    | (f', Normal a) => (f', Normal a)
    | (f', Throw e) => handler e f'
    end.

(** [try { body } finally { cleanup }]: the cleanup runs however the
    body ends; the body's completion stands unless the cleanup throws. *)
Definition try_finally {A} (body : M A) (cleanup : M unit) : M A :=
  fun f =>
    match body f with
    | (f', c) =>
        match cleanup f' with
        | (f'', Normal _) => (f'', c)
        | (f'', Throw e) => (f'', Throw e)
        end
    end.

Definition emit (ev : PgEvent) : M unit :=
  fun f => (mkFrame (client f) (pg f ++ [ev]) (globals f), Normal tt).

Definition get_client : M (option Client) :=
  fun f => (f, Normal (client f)).

Definition set_client (c : Client) : M unit :=
  fun f => (mkFrame (Some c) (pg f) (globals f), Normal tt).

Definition update_globals (upd : G -> G) : M unit :=
  fun f => (mkFrame (client f) (pg f) (upd (globals f)), Normal tt).

(** [await pool.connect()] *)
Definition pool_connect (env : ActionEnv) : M Client :=
  match connect_res env with
  | inr c => bind (emit (PoolConnect (Some c))) (fun _ => ret c)
  | inl e => bind (emit (PoolConnect None)) (fun _ => throw e)
  end.

(** [await client.query(...)] *)
Definition client_query (c : Client) (q : Query) (res : option PgError)
  : M unit :=
  bind (emit (ClientQuery c q))
       (fun _ => match res with
                 | None => ret tt
                 | Some e => throw e
                 end).

(** [if (client) client.release();] *)
Definition release_if_acquired : M unit :=
  bind get_client
       (fun oc => match oc with
                  | Some c => emit (ClientRelease c)
                  | None => ret tt
                  end).
End Effects.

Declare Scope js_scope.
Delimit Scope js_scope with js.
Notation "x <- c1 ;; c2" := (bind c1 (fun x => c2))
  (at level 61, c1 at next level, right associativity) : js_scope.
Notation "c1 ;; c2" := (bind c1 (fun _ => c2))
  (at level 61, right associativity) : js_scope.

(** The clients released in a sequence of pool calls, in order. *)
Fixpoint released (tr : list PgEvent) : list Client :=
  match tr with
  | [] => []
  | ClientRelease c :: tr' => c :: released tr'
  | _ :: tr' => released tr'
  end.

(** The clients granted in a sequence of pool calls, in order. *)
Fixpoint acquired (tr : list PgEvent) : list Client :=
  match tr with
  | [] => []
  | PoolConnect (Some c) :: tr' => c :: acquired tr'
  | _ :: tr' => acquired tr'
  end.

(** A frame on entry to a unit of work: no client yet, no call made. *)
Definition enter {G} (g : G) : Frame G := mkFrame None [] g.

(* ================================================================== *)
(** * The worker pool (both scripts) *)
(* ================================================================== *)

(** Where one of the [async] workers stands between two awaits. *)
Inductive Worker : Type :=
| Ready                       (* at the top of [while (true)] *)
| Running (taskIndex : nat)   (* awaiting [performUserAction] *)
| Finished.                   (* left the loop through [break] *)

(** The atomic pieces of a stage.
    [Poll w]: worker [w] runs
      [const taskIndex = tasksStarted++; if (taskIndex >= requestCount) break;]
    and, unless it broke out, calls [performUserAction] up to its first
    await.
    [Settle w env]: the unit of work of worker [w] runs to its end against
    the answers [env], and its outcome reaches the statistics. *)
Inductive PoolEvent : Type :=
| Poll (w : nat)
| Settle (w : nat) (env : ActionEnv).

(** The variables the workers of one stage share.  [issued] and [settled]
    are history: every value read from [tasksStarted] with the worker that
    read it, and every finished unit of work with its task index and the
    answers it got, both newest first. *)
Record PoolState (St : Type) : Type := mkPool {
  tasksStarted : nat;
  workers : list Worker;
  stats : St;
  issued : list (nat * nat);
  settled : list (nat * ActionEnv)
}.
Arguments mkPool {St} _ _ _ _ _.
Arguments tasksStarted {St} _.
Arguments workers {St} _.
Arguments stats {St} _.
Arguments issued {St} _.
Arguments settled {St} _.

(** The answers the finished units of work got, newest first. *)
Definition answers {St : Type} (st : PoolState St) : list ActionEnv :=
  map snd (settled st).

(** The task indices of the units of work in flight. *)
Definition running_index (x : Worker) : list nat :=
  match x with Running i => [i] | _ => [] end.

Definition in_flight (ws : list Worker) : list nat :=
  flat_map running_index ws.

Fixpoint set_worker (w : nat) (x : Worker) (ws : list Worker) : list Worker :=
  match ws, w with
  | [], _ => []
  | _ :: ws', O => x :: ws'
  | y :: ws', S w' => y :: set_worker w' x ws'
  end.

Definition is_running (x : Worker) : bool :=
  match x with Running _ => true | _ => false end.

Definition is_finished (x : Worker) : bool :=
  match x with Finished => true | _ => false end.

Definition is_ready (x : Worker) : bool :=
  match x with Ready => true | _ => false end.

Definition count_workers (p : Worker -> bool) (ws : list Worker) : nat :=
  length (filter p ws).
Arguments count_workers : simpl never.

Section WorkerPool.
Context {St : Type}.

(** What one finished unit of work does to the statistics. *)
Variable settle : ActionEnv -> St -> St.

Variable requestCount : nat.

Definition poll (w : nat) (st : PoolState St) : PoolState St :=
  let taskIndex := tasksStarted st in
  mkPool (S taskIndex)
         (set_worker w
            (if requestCount <=? taskIndex then Finished
             else Running taskIndex)
            (workers st))
         (stats st)
         ((w, taskIndex) :: issued st)
         (settled st).

(** An event that names a worker which is not at that point of its loop
    cannot happen, and changes nothing. *)
Definition step (st : PoolState St) (ev : PoolEvent) : PoolState St :=
  match ev with
  | Poll w =>
      match nth_error (workers st) w with
      | Some Ready => poll w st
      | _ => st
      end
  | Settle w env =>
      match nth_error (workers st) w with
      | Some (Running taskIndex) =>
          mkPool (tasksStarted st)
                 (set_worker w Ready (workers st))
                 (settle env (stats st))
                 (issued st)
                 ((taskIndex, env) :: settled st)
      | _ => st
      end
  end.

Definition enabled (st : PoolState St) (ev : PoolEvent) : bool :=
  match ev with
  | Poll w =>
      match nth_error (workers st) w with
      | Some Ready => true
      | _ => false
      end
  | Settle w _ =>
      match nth_error (workers st) w with
      | Some (Running _) => true
      | _ => false
      end
  end.

Definition exec (evs : list PoolEvent) (st : PoolState St) : PoolState St :=
  fold_left step evs st.

(** [let tasksStarted = 0; const workers = [];] and the statistics at
    zero, with [concurrency] workers about to be started. *)
Definition init_pool (concurrency : nat) (s0 : St) : PoolState St :=
  mkPool 0 (repeat Ready concurrency) s0 [] [].

(** [await Promise.all(workers)] is over: every worker has returned. *)
Definition all_finished (st : PoolState St) : bool :=
  forallb is_finished (workers st).

(** A bound on the number of events that can still happen. *)
Definition fuel_left (st : PoolState St) : nat :=
  2 * (requestCount + length (workers st) - tasksStarted st)
  + count_workers is_running (workers st).

(** The number of events of a schedule that do happen. *)
Fixpoint effective (evs : list PoolEvent) (st : PoolState St) : nat :=
  match evs with
  | [] => 0
  | ev :: evs' =>
      (if enabled st ev then 1 else 0) + effective evs' (step st ev)
  end.
End WorkerPool.

(** The [for] loop that starts the workers: each [async] body runs at once
    up to its first await, so worker [i] reads the counter before worker
    [i + 1] exists. *)
Definition spawn (concurrency : nat) : list PoolEvent :=
  map Poll (seq 0 concurrency).

(* ================================================================== *)
(** * index.js *)
(* ================================================================== *)

Module Index.

Definition MAX_ERROR_RATE : float := 0.05%float.

(** The [stats] object of [runStage]. *)
Record Stats : Type := mkStats {
  completed : nat;
  errors : nat;
  totalDuration : Z;
  latencies : list Z;
  connErrors : nat
}.

Definition stats0 : Stats := mkStats 0 0 0%Z [] 0.

(** [{ success: true, duration }] or [{ success: false, error }]. *)
Inductive ActionResult : Type :=
| Success (duration : Z)
| Failure (error : PgError).

(** [performUserAction(pool, userId)], lines 82-113.  The payload and
    the text of the statements do not influence control flow and are left
    out. *)
Definition performUserAction (env : ActionEnv) : M (G:=unit) ActionResult :=
  try_finally
    (try_catch
       (c <- pool_connect env ;;
        set_client c ;;
        client_query c INSERT (insert_res env) ;;
        client_query c SELECT (select_res env) ;;
        ret (Success (now_end env - now_start env)%Z))%js
       (fun err => ret (Failure err)))
    release_if_acquired.

(** [result.error.code === "53300" ||
     result.error.message.includes("timeout")] *)
Definition isConnError (error : PgError) : bool :=
  match code error with
  | Some c => String.eqb c "53300"
  | None => false
  end
  || includes "timeout" (message error).

(** Lines 154-167: what a worker does with the result. *)
Definition record (result : ActionResult) (stats : Stats) : Stats :=
  match result with
  | Success duration =>
      mkStats (S (completed stats))
              (errors stats)
              (totalDuration stats + duration)
              (latencies stats ++ [duration])
              (connErrors stats)
  | Failure error =>
      mkStats (completed stats)
              (S (errors stats))
              (totalDuration stats)
              (latencies stats)
              (if isConnError error then S (connErrors stats)
               else connErrors stats)
  end.

(** The result a unit of work returns against given answers.  The
    [Throw] branch is never taken: the function catches everything. *)
Definition outcome (env : ActionEnv) : option ActionResult :=
  match performUserAction env (enter tt) with
  | (_, Normal result) => Some result
  | (_, Throw _) => None
  end.

Definition settle (env : ActionEnv) (stats : Stats) : Stats :=
  match outcome env with
  | Some result => record result stats
  | None => stats
  end.

(** What [runStage] returns. *)
Record StageResult : Type := mkStageResult {
  concurrency : nat;
  throughput : float;
  avgLatency : float;
  errorRate : float;
  hasCriticalFailure : bool
}.

(** Lines 177-200: the figures of a stage, from the statistics the
    workers left and the two clock readings. *)
Definition stage_result (concurrency requestCount : nat)
           (startTime now : Z) (stats : Stats) : StageResult :=
  let totalTime := (num_of_Z (now - startTime) / 1000)%float in
  let throughput := (num_of_nat (completed stats) / totalTime)%float in
  let avgLatency :=
    if 0 <? completed stats
    then (num_of_Z (totalDuration stats) / num_of_nat (completed stats))%float
    else 0%float in
  let errorRate :=
    (num_of_nat (errors stats) / num_of_nat requestCount)%float in
  mkStageResult concurrency throughput avgLatency errorRate
                ((0 <? connErrors stats)
                 || (MAX_ERROR_RATE <? errorRate)%float).

(** What happens around one stage: the clock at line 140, the order in
    which the units of work in flight finish (with the answers each one
    got), and the clock at line 177. *)
Record StageEnv : Type := mkStageEnv {
  startTime : Z;
  completions : list (nat * ActionEnv);
  endTime : Z
}.

(** After its [await], a worker records the result and reads the counter
    again without giving up control in between. *)
Definition resume (c : nat * ActionEnv) : list PoolEvent :=
  [Settle (fst c) (snd c); Poll (fst c)].

Definition schedule (concurrency : nat) (env : StageEnv) : list PoolEvent :=
  spawn concurrency ++ flat_map resume (completions env).

(** The pool when the schedule has been played. *)
Definition run_workers (concurrency requestCount : nat) (env : StageEnv)
  : PoolState Stats :=
  exec settle requestCount (schedule concurrency env)
       (init_pool concurrency stats0).

(** [runStage(concurrency, requestCount)], lines 116-201, without the
    printing; [pool.end()] is taken to resolve.  [None]: the answers in
    [env] leave [Promise.all(workers)] pending. *)
Definition runStage (concurrency requestCount : nat) (env : StageEnv)
  : option StageResult :=
  let st := run_workers concurrency requestCount env in
  if all_finished st
  then Some (stage_result concurrency requestCount
                          (startTime env) (endTime env) (stats st))
  else None.

(** The constants of lines 10-13. *)
Record Config : Type := mkConfig {
  STAGE_REQUESTS : nat;
  INITIAL_CONCURRENCY : nat;
  CONCURRENCY_STEP : nat;
  MAX_CONCURRENCY : nat
}.

Definition config : Config := mkConfig 2000 10 10 500.

(** How the [while] loop of [runProgressiveTest] was left: through
    [break], having printed the stable limit, or through its condition. *)
Inductive Terminal : Type :=
| StoppedOnFailure (stableLimit : Z)
| StoppedAtCeiling.

Record RunReport : Type := mkRunReport {
  report : list StageResult;
  terminal : Terminal
}.

(** Lines 229-249.  The answers of the stage that runs when [n] results
    are in the report are [envs n].  [None]: the loop has not ended, for
    lack of fuel or because a stage stays pending. *)
Fixpoint ramp (fuel : nat) (cfg : Config) (envs : nat -> StageEnv)
         (currentConcurrency : nat) (report : list StageResult)
  : option RunReport :=
  match fuel with
  | O => None
  | S fuel' =>
      if currentConcurrency <=? MAX_CONCURRENCY cfg then
        match runStage currentConcurrency (STAGE_REQUESTS cfg)
                       (envs (length report)) with
        | None => None
        | Some result =>
            let report := report ++ [result] in
            if hasCriticalFailure result then
              Some (mkRunReport report
                      (StoppedOnFailure
                         (Z.of_nat currentConcurrency
                          - Z.of_nat (CONCURRENCY_STEP cfg))))
            else
              ramp fuel' cfg envs
                   (currentConcurrency + CONCURRENCY_STEP cfg) report
        end
      else Some (mkRunReport report StoppedAtCeiling)
  end.

Record RunEnv : Type := mkRunEnv {
  setup_ok : bool;                  (* setupTable(setupPool) resolved *)
  stage_env : nat -> StageEnv
}.

Inductive RunEnd : Type :=
| Aborted                           (* process.exit(1) at line 224 *)
| Ended (r : RunReport).

(** [runProgressiveTest()], lines 204-266, without the printing. *)
Definition runProgressiveTest (fuel : nat) (cfg : Config) (env : RunEnv)
  : option RunEnd :=
  if setup_ok env then
    option_map Ended
      (ramp fuel cfg (stage_env env) (INITIAL_CONCURRENCY cfg) [])
  else Some Aborted.

End Index.

(* ================================================================== *)
(** * stress_test.js *)
(* ================================================================== *)

Module StressTest.

(** The constants of lines 8-9. *)
Record Config : Type := mkConfig {
  NUM_USERS : nat;
  CONCURRENCY : nat
}.

Definition config : Config :=
  mkConfig (Z.to_nat 1000000) (Z.to_nat 50000).

(** The module-level [stats] object, lines 88-93. *)
Record Stats : Type := mkStats {
  completed : nat;
  errors : nat;
  totalDuration : Z;
  latencies : list Z
}.

Definition stats0 : Stats := mkStats 0 0 0%Z [].

(** Lines 126-128. *)
Definition record_success (duration : Z) (stats : Stats) : Stats :=
  mkStats (S (completed stats))
          (errors stats)
          (totalDuration stats + duration)
          (latencies stats ++ [duration]).

(** Line 130. *)
Definition record_error (stats : Stats) : Stats :=
  mkStats (completed stats)
          (S (errors stats))
          (totalDuration stats)
          (latencies stats).

(** [performUserAction(userId)], lines 96-135: the unit of work updates
    the shared statistics itself and returns nothing. *)
Definition performUserAction (env : ActionEnv) : M (G:=Stats) unit :=
  try_finally
    (try_catch
       (c <- pool_connect env ;;
        set_client c ;;
        client_query c INSERT (insert_res env) ;;
        client_query c SELECT (select_res env) ;;
        update_globals (record_success (now_end env - now_start env)%Z))%js
       (fun err => update_globals record_error))
    release_if_acquired.

Definition settle (env : ActionEnv) (stats : Stats) : Stats :=
  globals (fst (performUserAction env (enter stats))).

(** [stats.latencies.sort((a, b) => a - b)]: ascending numeric order. *)
Fixpoint insert_sorted (x : Z) (l : list Z) : list Z :=
  match l with
  | [] => [x]
  | y :: l' => if (x <=? y)%Z then x :: l else y :: insert_sorted x l'
  end.

Definition sort (l : list Z) : list Z := fold_right insert_sorted [] l.

(** [getPercentile(p)], lines 200-204, over the sorted samples.  [None]
    is [undefined]. *)
Definition getPercentile (latencies : list Z) (p : float) : option Z :=
  if length latencies =? 0 then Some 0%Z
  else
    match Math_floor ((p / 100) * num_of_nat (length latencies))%float with
    | Some index => js_index latencies index
    | None => None
    end.

(** What the run prints at its end, lines 209-225. *)
Record Summary : Type := mkSummary {
  successful : nat;
  failed : nat;
  totalTime : float;
  throughput : float;
  latency_avg : float;
  latency_p50 : option Z;
  latency_p95 : option Z;
  latency_p99 : option Z;
  latency_max : Z
}.

(** Lines 195-225, from the statistics the workers left. *)
Definition summary (startTime now : Z) (stats : Stats) : Summary :=
  let totalTime := (num_of_Z (now - startTime) / 1000)%float in
  let throughput := (num_of_nat (completed stats) / totalTime)%float in
  let sorted := sort (latencies stats) in
  mkSummary (completed stats)
            (errors stats)
            totalTime
            throughput
            (num_of_Z (totalDuration stats)
             / num_of_nat (if (completed stats =? 0)%nat then 1%nat
                           else completed stats))%float
            (getPercentile sorted 50)
            (getPercentile sorted 95)
            (getPercentile sorted 99)
            (last sorted 0%Z).

(** What happens around the run.  Here a worker gives up control between
    the update of the statistics (inside [performUserAction]) and its next
    read of the counter, so after the workers are started any order of
    events is possible. *)
Record RunEnv : Type := mkRunEnv {
  setup_ok : bool;
  startTime : Z;
  events : list PoolEvent;
  endTime : Z
}.

Definition schedule (cfg : Config) (env : RunEnv) : list PoolEvent :=
  spawn (CONCURRENCY cfg) ++ events env.

Definition run_workers (cfg : Config) (env : RunEnv) : PoolState Stats :=
  exec settle (NUM_USERS cfg) (schedule cfg env)
       (init_pool (CONCURRENCY cfg) stats0).

Inductive RunEnd : Type :=
| Aborted                           (* process.exit(1) at line 152 *)
| Ended (s : Summary).

(** [runStressTest()], lines 138-229.  [None]: [Promise.all(workers)]
    stays pending. *)
Definition runStressTest (cfg : Config) (env : RunEnv) : option RunEnd :=
  if setup_ok env then
    let st := run_workers cfg env in
    if all_finished st
    then Some (Ended (summary (startTime env) (endTime env) (stats st)))
    else None
  else Some Aborted.

End StressTest.

(* ================================================================== *)
(** * The code both scripts share around the engine *)
(* ================================================================== *)

Module Setup.

(** The three statements of [setupTable]. *)
Inductive Statement : Type := DROP_TABLE | CREATE_TABLE | CREATE_INDEX.

(** The calls [setupTable] makes on the pool and on its client, in call
    order. *)
Inductive Call : Type :=
| Connect (granted : option Client)
| Run (c : Client) (s : Statement)
| Release (c : Client).

(** What the pool and the database answer during the setup. *)
Record SetupEnv : Type := mkSetupEnv {
  connect_res : PgError + Client;      (* pool.connect() *)
  drop_res : option PgError;           (* DROP TABLE IF EXISTS *)
  create_res : option PgError;         (* CREATE TABLE *)
  index_res : option PgError           (* CREATE INDEX *)
}.

Definition SKIP_SETUP : bool := false.

Definition call (c : Call) : M (G:=list Call) unit :=
  update_globals (fun log => log ++ [c]).

(** [await pool.connect()] *)
Definition connect (env : SetupEnv) : M (G:=list Call) Client :=
  match connect_res env with
  | inr c => (call (Connect (Some c)) ;; ret c)%js
  | inl e => (call (Connect None) ;; throw e)%js
  end.

(** [await client.query(...)] *)
Definition run (c : Client) (s : Statement) (res : option PgError)
  : M (G:=list Call) unit :=
  (call (Run c s) ;;
   match res with
   | None => ret tt
   | Some e => throw e
   end)%js.

(** [setupTable], lines 47-79 of [index.js] and 53-85 of
    [stress_test.js], without the printing.  The client is acquired before
    the [try]; the [catch] rethrows. *)
Definition setupTable (env : SetupEnv) : M (G:=list Call) unit :=
  if SKIP_SETUP then ret tt
  else
    (client <- connect env ;;
     try_finally
       (try_catch
          (run client DROP_TABLE (drop_res env) ;;
           run client CREATE_TABLE (create_res env) ;;
           run client CREATE_INDEX (index_res env))
          (fun err => throw err))
       (call (Release client)))%js.

(** The calls and the completion of a setup. *)
Definition calls (env : SetupEnv) : list Call :=
  globals (fst (setupTable env (enter []))).

Definition completion_of (env : SetupEnv) : completion unit :=
  snd (setupTable env (enter [])).

(** [try { await setupTable(...) } catch (e) { process.exit(1) }]: whether
    the run goes on. *)
Definition setup_ok (env : SetupEnv) : bool :=
  match completion_of env with
  | Normal _ => true
  | Throw _ => false
  end.

End Setup.

Module Payload.

(** The alphabet of [generateRandomString]. *)
Definition characters : string :=
  "ABCDEFGHIJKLMNOPQRSTUVWXYZabcdefghijklmnopqrstuvwxyz0123456789"%string.

(** [Math.floor(x)] as a number: NaN, the infinities, the zeros and the
    numbers from 2^53 on, which are integers, are left as they are. *)
Definition floor_num (x : float) : float :=
  match Prim2SF x with
  | S754_finite s m e =>
      if (e <? 0)%Z
      then num_of_Z (Z.shiftl (if s then Z.neg m else Z.pos m) e)
      else x
  | _ => x
  end.

(** The position a number designates in a string: NaN is position 0, a
    fraction is cut off; [None] for the infinities. *)
Definition position (x : float) : option Z :=
  match Prim2SF x with
  | S754_nan | S754_zero _ => Some 0%Z
  | S754_infinity _ => None
  | S754_finite s m e =>
      let magnitude := Z.shiftl (Z.pos m) e in
      Some (if s then (- magnitude)%Z else magnitude)
  end.

(** [s.charAt(x)]: the empty string outside the string. *)
Definition charAt (s : string) (x : float) : string :=
  match position x with
  | Some i =>
      if (i <? 0)%Z then EmptyString
      else match String.get (Z.to_nat i) s with
           | Some a => String a EmptyString
           | None => EmptyString
           end
  | None => EmptyString
  end.

(** The source of [Math.random()]: the value of the n-th draw. *)
Definition Random : Type := nat -> float.

(** [generateRandomString(length)], lines 23-32 of [index.js] and 29-38 of
    [stress_test.js], after [drawn] draws and with [result] built so far:
    the string built and the number of draws made. *)
Fixpoint generateRandomString (length : nat) (random : Random) (drawn : nat)
         (result : string) : string * nat :=
  match length with
  | O => (result, drawn)
  | S length' =>
      generateRandomString length' random (S drawn)
        (result
         ++ charAt characters
              (floor_num
                 (random drawn
                  * num_of_nat (String.length characters))%float))
  end%string.

(** An integer in a template literal: its decimal digits. *)
Definition decimal (n : nat) : string :=
  NilEmpty.string_of_uint (Nat.to_uint n).

Definition decimal_Z (z : Z) : string :=
  NilEmpty.string_of_int (Z.to_int z).

(** [`user_${concurrency}_${taskIndex}_${Date.now()}`], line 151 of
    [index.js]. *)
Definition userId (concurrency taskIndex : nat) (now : Z) : string :=
  ("user_" ++ decimal concurrency ++ "_" ++ decimal taskIndex
   ++ "_" ++ decimal_Z now)%string.

(** [`user_${taskIndex}_${Date.now()}`], line 172 of [stress_test.js]. *)
Definition stress_userId (taskIndex : nat) (now : Z) : string :=
  ("user_" ++ decimal taskIndex ++ "_" ++ decimal_Z now)%string.

End Payload.

(** The latency samples 10, 20, ..., 1000. *)
Definition fixture : list Z := map (fun k => (10 * Z.of_nat k)%Z) (seq 1 100).

(* ================================================================== *)
(** * Vocabulary of the properties *)
(* ================================================================== *)

Definition sum_Z (l : list Z) : Z := fold_right Z.add 0%Z l.

(** Every await of the unit of work resolved. *)
Definition answers_ok (env : ActionEnv) : bool :=
  match connect_res env, insert_res env, select_res env with
  | inr _, None, None => true
  | _, _, _ => false
  end.

(** The durations of the successful units of work among [l], in order. *)
Definition durations (l : list ActionEnv) : list Z :=
  map (fun env => (now_end env - now_start env)%Z) (filter answers_ok l).

(** The error a failed unit of work caught: the first rejection. *)
Definition caught (env : ActionEnv) : option PgError :=
  match connect_res env with
  | inl e => Some e
  | inr _ =>
      match insert_res env with
      | Some e => Some e
      | None => select_res env
      end
  end.

(** The unit of work failed with an error of the connection class. *)
Definition conn_failure (env : ActionEnv) : bool :=
  match caught env with
  | Some e => Index.isConnError e
  | None => false
  end.

(** The counter has been read [n] times: the values read, newest first. *)
Definition indices_read (n : nat) : list nat := rev (seq 0 n).

(** What holds of the shared variables of a stage between any two events. *)
Record pool_inv {St : Type} (settle : ActionEnv -> St -> St)
       (requestCount concurrency : nat) (s0 : St) (st : PoolState St)
  : Prop := mkPoolInv {
  inv_workers : length (workers st) = concurrency;
  inv_in_flight :
    length (settled st) + count_workers is_running (workers st)
    = Nat.min (tasksStarted st) requestCount;
  inv_finished :
    count_workers is_finished (workers st) = tasksStarted st - requestCount;
  inv_issued : map snd (issued st) = indices_read (tasksStarted st);
  inv_each_once :
    Permutation (map fst (settled st) ++ in_flight (workers st))
                (seq 0 (Nat.min (tasksStarted st) requestCount));
  inv_stats : stats st = fold_right settle s0 (answers st);
  inv_exhausted :
    forall w i, In (w, i) (issued st) -> requestCount <= i ->
                nth_error (workers st) w = Some Finished;
  inv_final :
    forall l1 w i l2, issued st = l1 ++ (w, i) :: l2 -> requestCount <= i ->
                      ~ In w (map fst l1)
}.

(** No worker stands between the recording of a result and its next read
    of the counter. *)
Definition none_ready {St : Type} (st : PoolState St) : Prop :=
  count_workers is_ready (workers st) = 0.

(** Answers under which a unit of work succeeds in 30 ms. *)
Definition env_ok : ActionEnv := mkActionEnv 100 (inr 7) None None 130.

(** Answers under which the pool grants no client in time. *)
Definition env_timeout : ActionEnv :=
  mkActionEnv 100
    (inl (mkPgError None "timeout exceeded when trying to connect"%string))
    None None 5100.

(** Answers under which the INSERT is rejected. *)
Definition env_rejected : ActionEnv :=
  mkActionEnv 100 (inr 7)
    (Some (mkPgError (Some "23505"%string) "duplicate key value"%string))
    None 130.

(** A stage of two workers and three requests: worker 0 succeeds, worker
    1 has its INSERT rejected, worker 0 then times out on the pool. *)
Definition demo_stage : Index.StageEnv :=
  Index.mkStageEnv 1000
    [(0, env_ok); (1, env_rejected); (0, env_timeout)] 1050.

(** The same three requests under [stress_test.js], where both workers
    record their first result before either reads the counter again. *)
Definition demo_config : StressTest.Config := StressTest.mkConfig 3 2.

Definition demo_run : StressTest.RunEnv :=
  StressTest.mkRunEnv true 1000
    [Settle 0 env_ok; Settle 1 env_rejected; Poll 1; Poll 0;
     Settle 1 env_timeout; Poll 1] 1050.

(** A stage of one worker and one request that starts and ends within the
    same millisecond. *)
Definition instant_stage : Index.StageEnv :=
  Index.mkStageEnv 1000 [(0, env_ok)] 1000.

(** A stage with nothing to do that starts and ends within the same
    millisecond. *)
Definition idle_stage : Index.StageEnv := Index.mkStageEnv 1000 [] 1000.

(** A stage of one request during which the system clock is set back by
    one second. *)
Definition rewound_stage : Index.StageEnv :=
  Index.mkStageEnv 2000 [(0, env_ok)] 1000.

(** A ramp-up with one request per stage, in which the request of the
    third stage (concurrency 30) times out on the pool. *)
Definition demo_ramp_config : Index.Config := Index.mkConfig 1 10 10 500.

Definition demo_ramp_env : Index.RunEnv :=
  Index.mkRunEnv true
    (fun n => Index.mkStageEnv 1000
                [(0, if n =? 2 then env_timeout else env_ok)] 1040).

Definition demo_ramp_report : list Index.StageResult :=
  [Index.stage_result 10 1 1000 1040 (Index.settle env_ok Index.stats0);
   Index.stage_result 20 1 1000 1040 (Index.settle env_ok Index.stats0);
   Index.stage_result 30 1 1000 1040 (Index.settle env_timeout Index.stats0)].

(** The result of stage number [k] of that run. *)
Definition demo_ramp_result (k : nat) : Index.StageResult :=
  Index.stage_result (10 + k * 10) 1 1000 1040
    (Index.settle (if k =? 2 then env_timeout else env_ok) Index.stats0).

(** A ramp-up to a ceiling of 30 in which every request succeeds. *)
Definition calm_ramp_env : Index.RunEnv :=
  Index.mkRunEnv true (fun _ => Index.mkStageEnv 1000 [(0, env_ok)] 1040).

(** The first rejection a setup meets, if any. *)
Definition setup_rejection (env : Setup.SetupEnv) : option PgError :=
  match Setup.connect_res env with
  | inl e => Some e
  | inr _ =>
      match Setup.drop_res env with
      | Some e => Some e
      | None =>
          match Setup.create_res env with
          | Some e => Some e
          | None => Setup.index_res env
          end
      end
  end.

(** The statements a setup sends once it holds a client: each one only if
    the one before it resolved. *)
Definition setup_statements (env : Setup.SetupEnv) : list Setup.Statement :=
  Setup.DROP_TABLE
  :: match Setup.drop_res env with
     | Some _ => []
     | None =>
         Setup.CREATE_TABLE
         :: match Setup.create_res env with
            | Some _ => []
            | None => [Setup.CREATE_INDEX]
            end
     end.

(** The statements sent in a sequence of pool calls, in order. *)
Fixpoint queries (tr : list PgEvent) : list (Client * Query) :=
  match tr with
  | [] => []
  | ClientQuery c q :: tr' => (c, q) :: queries tr'
  | _ :: tr' => queries tr'
  end.

(** A setup whose CREATE TABLE is rejected. *)
Definition setup_rejected_create : Setup.SetupEnv :=
  Setup.mkSetupEnv (inr 3) None
    (Some (mkPgError (Some "42P07"%string) "relation already exists"%string))
    None.

(** A setup in which nothing is rejected. *)
Definition setup_fine : Setup.SetupEnv :=
  Setup.mkSetupEnv (inr 3) None None None.

(** An error of the database when it has no connection slot left, and an
    error that only mentions a timeout somewhere in its message. *)
Definition too_many_connections : PgError :=
  mkPgError (Some "53300"%string) "sorry, too many clients already"%string.

Definition statement_timeout : PgError :=
  mkPgError (Some "57014"%string)
    "canceling statement due to statement timeout"%string.

(** A stage of two workers and three requests that all succeed. *)
Definition smooth_stage : Index.StageEnv :=
  Index.mkStageEnv 1000 [(1, env_ok); (0, env_ok); (1, env_ok)] 1090.

(** The number of concurrency levels from the initial one to the ceiling,
    one step apart. *)
Definition stage_count (cfg : Index.Config) : nat :=
  if Index.INITIAL_CONCURRENCY cfg <=? Index.MAX_CONCURRENCY cfg
  then (Index.MAX_CONCURRENCY cfg - Index.INITIAL_CONCURRENCY cfg)
       / Index.CONCURRENCY_STEP cfg + 1
  else 0.

(** The result of the calm ramp-up at its [k]-th stage. *)
Definition calm_result (k : nat) : Index.StageResult :=
  Index.stage_result (10 + k * 10) 1 1000 1040
                     (Index.settle env_ok Index.stats0).

(** A ramp-up whose step is 0. *)
Definition stalled_config : Index.Config := Index.mkConfig 1 10 0 30.

(** The three requests of [demo_run] when every answer is a rejection. *)
Definition failing_run : StressTest.RunEnv :=
  StressTest.mkRunEnv true 1000
    [Settle 0 env_rejected; Settle 1 env_rejected; Poll 1; Poll 0;
     Settle 1 env_timeout; Poll 1] 1050.

(** The characters of a string. *)
Definition chars (s : string) : list ascii := list_ascii_of_string s.

(** A source of random numbers that repeats five draws. *)
Definition demo_random : Payload.Random :=
  fun n => match n mod 5 with
           | 0 => 0%float
           | 1 => 0.5%float
           | 2 => 0.999%float
           | 3 => 0.42%float
           | _ => 0.25%float
           end.

(* ================================================================== *)
(** * Properties *)
(* ================================================================== *)

(** ** Lists of workers *)

Lemma set_worker_length w x ws : length (set_worker w x ws) = length ws.
Proof.
  revert w; induction ws as [|y ws IH]; intros [|w]; cbn; auto.
Qed.

Lemma set_worker_same w x ws :
  w < length ws -> nth_error (set_worker w x ws) w = Some x.
Proof.
  revert w; induction ws as [|y ws IH]; intros [|w] Hw; cbn in *;
    try lia; auto.
  apply IH; lia.
Qed.

Lemma set_worker_other w w' x ws :
  w <> w' -> nth_error (set_worker w x ws) w' = nth_error ws w'.
Proof.
  revert w w'; induction ws as [|y ws IH]; intros [|w] [|w'] Hne; cbn;
    try congruence; auto.
Qed.

Lemma count_set_worker p w x y ws :
  nth_error ws w = Some y ->
  count_workers p (set_worker w x ws) + (if p y then 1 else 0)
  = count_workers p ws + (if p x then 1 else 0).
Proof.
  unfold count_workers.
  revert w; induction ws as [|z ws IH]; intros [|w] Hw; cbn in *;
    try discriminate.
  - injection Hw as ->. destruct (p x), (p y); cbn; lia.
  - specialize (IH _ Hw). destruct (p z); cbn; lia.
Qed.

Lemma count_repeat_ready p n :
  count_workers p (repeat Ready n) = if p Ready then n else 0.
Proof.
  unfold count_workers.
  induction n as [|n IH]; cbn.
  - now destruct (p Ready).
  - destruct (p Ready); cbn; auto.
Qed.

Lemma count_workers_le p ws : count_workers p ws <= length ws.
Proof. apply filter_length_le. Qed.

Lemma all_finished_count ws :
  forallb is_finished ws = true <->
  count_workers is_finished ws = length ws.
Proof.
  unfold count_workers.
  induction ws as [|x ws IH]; cbn; [tauto|].
  pose proof (filter_length_le is_finished ws) as Hle.
  destruct (is_finished x); cbn.
  - rewrite IH. lia.
  - split; [discriminate | lia].
Qed.

Lemma count_partition ws :
  count_workers is_ready ws + count_workers is_running ws
  + count_workers is_finished ws = length ws.
Proof.
  unfold count_workers.
  induction ws as [|x ws IH]; cbn; [reflexivity|].
  destruct x; cbn; lia.
Qed.

Lemma count_positive p ws :
  0 < count_workers p ws -> exists w x, nth_error ws w = Some x /\ p x = true.
Proof.
  unfold count_workers.
  induction ws as [|y ws IH]; cbn; [lia|].
  destruct (p y) eqn:Hy; cbn; intros H.
  - exists 0, y. now split.
  - destruct (IH H) as (w & x & Hw & Hx). exists (S w), x. now split.
Qed.

Lemma in_flight_set_worker w x y ws :
  nth_error ws w = Some y ->
  Permutation (in_flight (set_worker w x ws) ++ running_index y)
              (in_flight ws ++ running_index x).
Proof.
  unfold in_flight.
  revert w; induction ws as [|z ws IH]; intros [|w] Hw; cbn in *;
    try discriminate.
  - injection Hw as ->.
    rewrite <- !app_assoc.
    etransitivity; [apply Permutation_app_comm|].
    rewrite <- app_assoc. apply Permutation_app_swap_app.
  - rewrite <- !app_assoc. apply Permutation_app_head, IH, Hw.
Qed.

Lemma in_flight_repeat_ready n : in_flight (repeat Ready n) = [].
Proof. induction n as [|n IH]; cbn; auto. Qed.

Lemma in_flight_all_finished ws :
  forallb is_finished ws = true -> in_flight ws = [].
Proof.
  induction ws as [|x ws IH]; cbn; [reflexivity|].
  destruct x; cbn; try discriminate. exact IH.
Qed.

(** ** The worker pool under any schedule *)

Lemma indices_read_S n : indices_read (S n) = n :: indices_read n.
Proof.
  unfold indices_read. rewrite seq_S, rev_app_distr. reflexivity.
Qed.

Lemma indices_read_length n : length (indices_read n) = n.
Proof. unfold indices_read. now rewrite length_rev, length_seq. Qed.

Lemma indices_read_NoDup n : NoDup (indices_read n).
Proof.
  unfold indices_read. apply NoDup_rev, seq_NoDup.
Qed.

Lemma indices_read_split n l1 i l2 :
  indices_read n = l1 ++ i :: l2 -> i = length l2 /\ n = length l1 + S i.
Proof.
  revert l1; induction n as [|n IH]; intros l1 H.
  - destruct l1; discriminate.
  - rewrite indices_read_S in H. destruct l1 as [|a l1]; cbn in H.
    + injection H as <- <-. rewrite indices_read_length. cbn. lia.
    + injection H as <- H. destruct (IH _ H) as [-> ->]. cbn. lia.
Qed.

Section PoolFacts.
Context {St : Type}.
Variable settle : ActionEnv -> St -> St.
Variables requestCount concurrency : nat.
Variable s0 : St.

Notation inv := (pool_inv settle requestCount concurrency s0).

Lemma init_pool_inv : inv (init_pool concurrency s0).
Proof.
  constructor; unfold init_pool;
    cbn [tasksStarted workers stats issued settled length fold_right map].
  - apply repeat_length.
  - now rewrite count_repeat_ready.
  - now rewrite count_repeat_ready.
  - reflexivity.
  - now rewrite in_flight_repeat_ready.
  - reflexivity.
  - intros w i [].
  - intros [|a l1] w i l2 H; discriminate.
Qed.

Local Ltac fields :=
  cbn [tasksStarted workers stats issued settled length fold_right map].

Lemma poll_inv st w :
  inv st -> nth_error (workers st) w = Some Ready ->
  inv (poll requestCount w st).
Proof.
  intros [Hlen Hfly Hfin Hiss Honce Hstats Hexh Hlast] Hw.
  pose proof (in_flight_set_worker w
                (if requestCount <=? tasksStarted st then Finished
                 else Running (tasksStarted st)) _ _ Hw) as Hfl.
  assert (Hlt : w < length (workers st))
    by (apply nth_error_Some; congruence).
  pose proof (count_set_worker is_running w
                (if requestCount <=? tasksStarted st then Finished
                 else Running (tasksStarted st)) _ _ Hw) as Hrun.
  pose proof (count_set_worker is_finished w
                (if requestCount <=? tasksStarted st then Finished
                 else Running (tasksStarted st)) _ _ Hw) as Hdone.
  constructor; unfold poll; fields.
  - now rewrite set_worker_length.
  - destruct (Nat.leb_spec requestCount (tasksStarted st));
      cbn [is_running] in Hrun; lia.
  - destruct (Nat.leb_spec requestCount (tasksStarted st));
      cbn [is_finished] in Hdone; lia.
  - now rewrite Hiss, indices_read_S.
  - cbn [running_index] in Hfl. rewrite app_nil_r in Hfl. rewrite Hfl.
    destruct (Nat.leb_spec requestCount (tasksStarted st)).
    + cbn [running_index]. rewrite app_nil_r.
      replace (Nat.min (S (tasksStarted st)) requestCount)
        with (Nat.min (tasksStarted st) requestCount) by lia.
      exact Honce.
    + cbn [running_index].
      replace (Nat.min (S (tasksStarted st)) requestCount)
        with (S (tasksStarted st)) by lia.
      replace (Nat.min (tasksStarted st) requestCount)
        with (tasksStarted st) in Honce by lia.
      rewrite seq_S, app_assoc. cbn [plus].
      now apply Permutation_app_tail.
  - exact Hstats.
  - intros w' i [Heq | Hin] Hi.
    + injection Heq as <- <-.
      rewrite set_worker_same by exact Hlt.
      destruct (Nat.leb_spec requestCount (tasksStarted st));
        [reflexivity | lia].
    + specialize (Hexh _ _ Hin Hi).
      rewrite set_worker_other; [exact Hexh | congruence].
  - intros [|a l1] w' i l2 Heq Hi; cbn; [tauto|].
    cbn in Heq. injection Heq as <- Heq.
    intros [<- | Hin].
    + assert (Hf : nth_error (workers st) w = Some Finished).
      { apply (Hexh w i); [|exact Hi].
        rewrite Heq. apply in_or_app. right. now left. }
      cbn in Hf. congruence.
    + exact (Hlast _ _ _ _ Heq Hi Hin).
Qed.

Lemma settle_inv st w i env :
  inv st -> nth_error (workers st) w = Some (Running i) ->
  inv (mkPool (tasksStarted st) (set_worker w Ready (workers st))
              (settle env (stats st)) (issued st) ((i, env) :: settled st)).
Proof.
  intros [Hlen Hfly Hfin Hiss Honce Hstats Hexh Hlast] Hw.
  pose proof (in_flight_set_worker w Ready _ _ Hw) as Hfl.
  cbn [running_index] in Hfl. rewrite app_nil_r in Hfl.
  pose proof (count_set_worker is_running w Ready _ _ Hw) as Hrun.
  pose proof (count_set_worker is_finished w Ready _ _ Hw) as Hdone.
  cbn [is_running is_finished] in Hrun, Hdone.
  constructor; fields.
  - now rewrite set_worker_length.
  - lia.
  - lia.
  - exact Hiss.
  - cbn [fst]. rewrite <- Honce, <- Hfl.
    rewrite app_assoc. apply Permutation_cons_append.
  - unfold answers in *. fields. cbn [snd]. now rewrite Hstats.
  - intros w' j Hin Hj. specialize (Hexh _ _ Hin Hj).
    rewrite set_worker_other; [exact Hexh | congruence].
  - exact Hlast.
Qed.

Lemma step_inv st ev : inv st -> inv (step settle requestCount st ev).
Proof.
  intros Hinv. destruct ev as [w | w env]; cbn.
  - destruct (nth_error (workers st) w) as [[| |]|] eqn:Hw; auto.
    now apply poll_inv.
  - destruct (nth_error (workers st) w) as [[|i|]|] eqn:Hw; auto.
    now apply settle_inv with (i := i).
Qed.

Lemma exec_inv evs st : inv st -> inv (exec settle requestCount evs st).
Proof.
  revert st; induction evs as [|ev evs IH]; intros st Hinv; cbn; auto.
  apply IH, step_inv, Hinv.
Qed.

Lemma reachable_inv evs :
  inv (exec settle requestCount evs (init_pool concurrency s0)).
Proof. apply exec_inv, init_pool_inv. Qed.

(** When the last worker has returned, every index below [requestCount]
    has been handed out and its unit of work has been settled. *)
Lemma drained st :
  inv st -> 1 <= concurrency -> all_finished st = true ->
  length (settled st) = requestCount
  /\ requestCount < tasksStarted st
  /\ Permutation (map fst (settled st)) (seq 0 requestCount).
Proof.
  intros [Hlen Hfly Hfin _ Honce _ _ _] Hc Hall.
  rewrite (in_flight_all_finished _ Hall), app_nil_r in Honce.
  apply all_finished_count in Hall.
  pose proof (count_partition (workers st)).
  assert (Hdone : requestCount < tasksStarted st) by lia.
  replace (Nat.min (tasksStarted st) requestCount) with requestCount
    in Honce by lia.
  repeat split; [lia | exact Hdone | exact Honce].
Qed.

(** A pool with no idle worker either has drained or has a unit of work
    in flight. *)
Lemma busy_or_finished (st : PoolState St) :
  none_ready st -> all_finished st = false ->
  exists w i, nth_error (workers st) w = Some (Running i).
Proof.
  unfold none_ready. intros Hready Hall.
  assert (Hrun : 0 < count_workers is_running (workers st)).
  { pose proof (count_partition (workers st)).
    pose proof (count_workers_le is_finished (workers st)).
    destruct (Nat.eq_dec (count_workers is_finished (workers st))
                         (length (workers st))) as [Heq|Hne].
    - apply all_finished_count in Heq. unfold all_finished in Hall.
      congruence.
    - lia. }
  destruct (count_positive _ _ Hrun) as (w & x & Hw & Hx).
  destruct x; try discriminate. eauto.
Qed.

(** A worker that resumes after its await leaves no worker idle. *)
Lemma resume_none_ready (st : PoolState St) w i env :
  none_ready st -> nth_error (workers st) w = Some (Running i) ->
  none_ready (exec settle requestCount [Settle w env; Poll w] st)
  /\ settled (exec settle requestCount [Settle w env; Poll w] st)
     = (i, env) :: settled st.
Proof.
  unfold none_ready. intros Hready Hw.
  assert (Hlt : w < length (workers st))
    by (apply nth_error_Some; congruence).
  cbn. rewrite Hw. cbn.
  rewrite set_worker_same by exact Hlt. cbn. split; [|reflexivity].
  pose proof (count_set_worker is_ready w Ready _ _ Hw) as H1.
  assert (Hw' : nth_error (set_worker w Ready (workers st)) w = Some Ready)
    by now apply set_worker_same.
  pose proof (count_set_worker is_ready w
                (if requestCount <=? tasksStarted st then Finished
                 else Running (tasksStarted st)) _ _ Hw') as H2.
  destruct (requestCount <=? tasksStarted st); cbn in *; lia.
Qed.

(** From any point with no idle worker, the units of work in flight can
    finish one after the other until the pool has drained. *)
Lemma can_drain st :
  inv st -> none_ready st ->
  forall answer : ActionEnv,
  exists order : list nat,
    all_finished
      (exec settle requestCount
            (flat_map (fun w => [Settle w answer; Poll w]) order) st)
    = true.
Proof.
  intros Hinv Hready answer.
  remember (requestCount - length (settled st)) as k eqn:Hk.
  revert st Hinv Hready Hk.
  induction k as [|k IH]; intros st Hinv Hready Hk.
  - destruct (all_finished st) eqn:Hall; [now exists [] |].
    destruct (busy_or_finished _ Hready Hall) as (w & i & Hw).
    destruct Hinv as [_ Hfly _ _ _ _ _ _].
    assert (0 < count_workers is_running (workers st)).
    { pose proof (count_set_worker is_running w Ready _ _ Hw) as H.
      cbn in H. lia. }
    lia.
  - destruct (all_finished st) eqn:Hall; [now exists [] |].
    destruct (busy_or_finished _ Hready Hall) as (w & i & Hw).
    destruct (resume_none_ready st w i answer Hready Hw) as [Hr Hs].
    destruct (IH (exec settle requestCount [Settle w answer; Poll w] st))
      as [order Horder].
    + apply exec_inv, Hinv.
    + exact Hr.
    + rewrite Hs. cbn. lia.
    + exists (w :: order). cbn [flat_map].
      unfold exec in *. rewrite fold_left_app. exact Horder.
Qed.

Lemma spawn_none_ready_aux n ws T (s : St) iss stl :
  none_ready
    (exec settle requestCount (map Poll (seq (length ws) n))
          (mkPool T (ws ++ repeat Ready n) s iss stl))
  <-> count_workers is_ready ws = 0.
Proof.
  revert ws T iss; induction n as [|n IH]; intros ws T iss.
  - cbn. rewrite app_nil_r. reflexivity.
  - change (repeat Ready (S n)) with (Ready :: repeat Ready n).
    cbn [seq map exec fold_left step]. cbn [workers].
    rewrite nth_error_app2 by lia. rewrite Nat.sub_diag. cbn [nth_error].
    unfold poll. cbn [tasksStarted workers stats issued settled].
    set (x := if requestCount <=? T then Finished else Running T).
    assert (Hset : set_worker (length ws) x (ws ++ Ready :: repeat Ready n)
                   = (ws ++ [x]) ++ repeat Ready n).
    { clear. induction ws as [|y ws IHws]; cbn; [reflexivity|].
      now rewrite IHws. }
    rewrite Hset.
    replace (S (length ws)) with (length (ws ++ [x]))
      by (rewrite length_app; cbn; lia).
    unfold exec in IH. rewrite IH.
    unfold count_workers. rewrite filter_app, length_app.
    subst x. destruct (requestCount <=? T); cbn; lia.
Qed.

(** Once the [for] loop has started the workers, none is idle. *)
Lemma spawn_none_ready :
  none_ready
    (exec settle requestCount (spawn concurrency)
          (init_pool concurrency s0)).
Proof.
  unfold spawn, init_pool.
  apply (spawn_none_ready_aux concurrency [] 0 s0 [] []). reflexivity.
Qed.
End PoolFacts.

(** ** A stage always drains *)

Section PoolProgress.
Context {St : Type}.
Variable settle : ActionEnv -> St -> St.
Variables requestCount concurrency : nat.
Variable s0 : St.

Notation inv := (pool_inv settle requestCount concurrency s0).

Lemma disabled_step (st : PoolState St) ev :
  enabled st ev = false -> step settle requestCount st ev = st.
Proof.
  destruct ev as [w|w env]; cbn;
    destruct (nth_error (workers st) w) as [[| |]|]; auto; discriminate.
Qed.

(** Every event that happens uses up some of the bound. *)
Lemma enabled_step_decreases st ev :
  inv st -> enabled st ev = true ->
  fuel_left requestCount (step settle requestCount st ev)
  < fuel_left requestCount st.
Proof.
  intros [Hlen Hfly Hfin _ _ _ _ _] Hen.
  pose proof (count_partition (workers st)) as Hpart.
  unfold fuel_left.
  destruct ev as [w|w env]; cbn in *;
    destruct (nth_error (workers st) w) as [[|i|]|] eqn:Hw;
    try discriminate.
  - pose proof (count_set_worker is_ready w Finished _ _ Hw) as Hready.
    pose proof (count_set_worker is_running w
                  (if requestCount <=? tasksStarted st then Finished
                   else Running (tasksStarted st)) _ _ Hw) as Hrun.
    unfold poll; cbn [tasksStarted workers].
    rewrite set_worker_length.
    cbn [is_ready is_running] in Hready, Hrun.
    destruct (requestCount <=? tasksStarted st); cbn [is_running] in Hrun;
      lia.
  - pose proof (count_set_worker is_running w Ready _ _ Hw) as Hrun.
    cbn [tasksStarted workers]. rewrite set_worker_length.
    cbn [is_running] in Hrun. lia.
Qed.

(** Under any schedule, at most [2 * (requestCount + concurrency)] events
    happen in a stage. *)
Lemma effective_bound evs : forall st,
  inv st ->
  effective settle requestCount evs st
  + fuel_left requestCount (exec settle requestCount evs st)
  <= fuel_left requestCount st.
Proof.
  induction evs as [|ev evs IH]; intros st Hinv; cbn [effective exec fold_left].
  - lia.
  - specialize (IH _ (step_inv settle requestCount concurrency s0 st ev Hinv)).
    unfold exec in IH.
    destruct (enabled st ev) eqn:Hen.
    + pose proof (enabled_step_decreases st ev Hinv Hen). lia.
    + rewrite (disabled_step st ev Hen) in *. lia.
Qed.

Lemma effective_at_most evs :
  effective settle requestCount evs (init_pool concurrency s0)
  <= 2 * (requestCount + concurrency).
Proof.
  pose proof (effective_bound evs _
                (init_pool_inv settle requestCount concurrency s0)) as H.
  assert (Hinit : fuel_left requestCount (init_pool concurrency s0)
                  = 2 * (requestCount + concurrency)).
  { unfold fuel_left, init_pool. cbn [tasksStarted workers].
    rewrite repeat_length, count_repeat_ready. cbn [is_running]. lia. }
  lia.
Qed.

(** As long as a worker has not returned, something can happen. *)
Lemma unfinished_enabled (st : PoolState St) (answer : ActionEnv) :
  all_finished st = false -> exists ev, enabled st ev = true.
Proof.
  unfold all_finished. intros Hall.
  assert (H : exists w x, nth_error (workers st) w = Some x
                          /\ is_finished x = false).
  { induction (workers st) as [|y ws IH]; cbn in Hall; [discriminate|].
    destruct (is_finished y) eqn:Hy.
    - destruct (IH Hall) as (w & x & Hw & Hx). exists (S w), x. now split.
    - exists 0, y. now split. }
  destruct H as (w & [|i|] & Hw & Hx); try discriminate.
  - exists (Poll w). cbn. now rewrite Hw.
  - exists (Settle w answer). cbn. now rewrite Hw.
Qed.

(** From any point of a stage, the pool can drain. *)
Lemma can_drain_from_anywhere (answer : ActionEnv) : forall st,
  inv st ->
  exists evs, all_finished (exec settle requestCount evs st) = true.
Proof.
  intros st. remember (fuel_left requestCount st) as k eqn:Hk.
  revert st Hk. induction k as [k IH] using lt_wf_ind; intros st Hk Hinv.
  destruct (all_finished st) eqn:Hall; [now exists []|].
  destruct (unfinished_enabled st answer Hall) as [ev Hen].
  pose proof (enabled_step_decreases st ev Hinv Hen) as Hlt.
  destruct (IH _ ltac:(subst k; exact Hlt) (step settle requestCount st ev)
               eq_refl (step_inv _ _ _ _ st ev Hinv)) as [evs Hevs].
  exists (ev :: evs). exact Hevs.
Qed.
End PoolProgress.

(** ** One unit of work *)

Lemma answers_ok_caught env : answers_ok env = true <-> caught env = None.
Proof.
  destruct env as [t0 [e|c] [e1|] [e2|] t1]; cbn; split; congruence.
Qed.

(** [performUserAction] of [index.js] never throws: it returns the
    duration when every await resolved and the caught error otherwise. *)
Lemma index_outcome env :
  Index.outcome env
  = Some (match caught env with
          | None => Index.Success (now_end env - now_start env)
          | Some e => Index.Failure e
          end).
Proof.
  destruct env as [t0 [e|c] [e1|] [e2|] t1]; reflexivity.
Qed.

Lemma index_settle env s :
  Index.settle env s
  = Index.record (match caught env with
                  | None => Index.Success (now_end env - now_start env)
                  | Some e => Index.Failure e
                  end) s.
Proof. unfold Index.settle. now rewrite index_outcome. Qed.

(** [performUserAction] of [stress_test.js] never throws either, and
    leaves the statistics as the recording code of [index.js] would, less
    the connection-error counter. *)
Lemma stress_settle env s :
  StressTest.settle env s
  = if answers_ok env
    then StressTest.record_success (now_end env - now_start env) s
    else StressTest.record_error s.
Proof.
  destruct env as [t0 [e|c] [e1|] [e2|] t1]; reflexivity.
Qed.

Lemma stress_never_throws env s :
  snd (StressTest.performUserAction env (enter s)) = Normal tt.
Proof.
  destruct env as [t0 [e|c] [e1|] [e2|] t1]; reflexivity.
Qed.

(** ** Statistics as a function of the settled units of work *)

Lemma sum_Z_app l d : sum_Z (l ++ [d]) = (sum_Z l + d)%Z.
Proof.
  unfold sum_Z. induction l as [|x l IH]; cbn; [lia|]. rewrite IH. lia.
Qed.

Lemma durations_snoc l env :
  durations (l ++ [env])
  = durations l ++ (if answers_ok env
                    then [(now_end env - now_start env)%Z] else []).
Proof.
  unfold durations. rewrite filter_app, map_app. cbn.
  now destruct (answers_ok env).
Qed.

Lemma filter_snoc_length {A} (p : A -> bool) l x :
  length (filter p (l ++ [x]))
  = length (filter p l) + (if p x then 1 else 0).
Proof.
  rewrite filter_app, length_app. cbn. now destruct (p x).
Qed.

(** The [stats] object of [index.js] after the units of work [log]
    (newest first) have been recorded. *)
Lemma index_stats_of_log log :
  let s := fold_right Index.settle Index.stats0 log in
  Index.latencies s = durations (rev log)
  /\ Index.completed s = length (filter answers_ok (rev log))
  /\ Index.errors s
     = length (filter (fun e => negb (answers_ok e)) (rev log))
  /\ Index.totalDuration s = sum_Z (Index.latencies s)
  /\ Index.connErrors s = length (filter conn_failure (rev log)).
Proof.
  induction log as [|env log IH]; cbn [fold_right rev].
  - cbn. repeat split.
  - cbn zeta in IH. destruct IH as (Hlat & Hcomp & Herr & Hsum & Hconn).
    rewrite index_settle, durations_snoc, !filter_snoc_length.
    unfold conn_failure at 2.
    destruct (caught env) as [e|] eqn:Hc.
    + assert (Hok : answers_ok env = false).
      { destruct (answers_ok env) eqn:H; [|reflexivity].
        apply answers_ok_caught in H. congruence. }
      rewrite Hok. cbn.
      rewrite app_nil_r, Hlat, Hcomp, Herr, <- Hlat, Hsum, Hconn.
      repeat split; try lia. destruct (Index.isConnError e); lia.
    + assert (Hok : answers_ok env = true) by now apply answers_ok_caught.
      rewrite Hok. cbn.
      rewrite sum_Z_app, Hlat, Hcomp, Herr, <- Hlat, Hsum, Hconn.
      repeat split; lia.
Qed.

(** The same for the [stats] object of [stress_test.js]. *)
Lemma stress_stats_of_log log :
  let s := fold_right StressTest.settle StressTest.stats0 log in
  StressTest.latencies s = durations (rev log)
  /\ StressTest.completed s = length (filter answers_ok (rev log))
  /\ StressTest.errors s
     = length (filter (fun e => negb (answers_ok e)) (rev log))
  /\ StressTest.totalDuration s = sum_Z (StressTest.latencies s).
Proof.
  induction log as [|env log IH]; cbn [fold_right rev].
  - cbn. repeat split.
  - cbn zeta in IH. destruct IH as (Hlat & Hcomp & Herr & Hsum).
    rewrite stress_settle, durations_snoc, !filter_snoc_length.
    destruct (answers_ok env); cbn.
    + rewrite sum_Z_app, Hlat, Hcomp, Herr, <- Hlat, Hsum.
      repeat split; lia.
    + rewrite app_nil_r, Hlat, Hcomp, Herr, <- Hlat, Hsum.
      repeat split; lia.
Qed.

Lemma filter_split_length {A} (p : A -> bool) l :
  length (filter p l) + length (filter (fun x => negb (p x)) l) = length l.
Proof.
  induction l as [|x l IH]; cbn; [reflexivity|].
  destruct (p x); cbn; lia.
Qed.

Lemma index_run_inv c r env :
  pool_inv Index.settle r c Index.stats0 (Index.run_workers c r env).
Proof. apply reachable_inv. Qed.

Lemma stress_run_inv cfg env :
  pool_inv StressTest.settle (StressTest.NUM_USERS cfg)
           (StressTest.CONCURRENCY cfg) StressTest.stats0
           (StressTest.run_workers cfg env).
Proof. apply reachable_inv. Qed.

(** Both counters of [index.js] together count the settled units. *)
Lemma index_tally c r env :
  let st := Index.run_workers c r env in
  Index.completed (stats st) + Index.errors (stats st)
  = length (settled st).
Proof.
  cbn zeta. destruct (index_run_inv c r env) as [_ _ _ _ _ Hstats _ _].
  rewrite Hstats.
  destruct (index_stats_of_log (answers (Index.run_workers c r env)))
    as (_ & -> & -> & _).
  unfold answers. now rewrite filter_split_length, length_rev, length_map.
Qed.

Lemma stress_tally cfg env :
  let st := StressTest.run_workers cfg env in
  StressTest.completed (stats st) + StressTest.errors (stats st)
  = length (settled st).
Proof.
  cbn zeta. destruct (stress_run_inv cfg env) as [_ _ _ _ _ Hstats _ _].
  rewrite Hstats.
  destruct (stress_stats_of_log (answers (StressTest.run_workers cfg env)))
    as (_ & -> & -> & _).
  unfold answers. now rewrite filter_split_length, length_rev, length_map.
Qed.

(** Whatever the concurrency and the number of requests, some order of
    completions lets a stage of [index.js] finish: the pool cannot get
    stuck. *)
Lemma stage_can_finish c r (answer : ActionEnv) (t0 t1 : Z) :
  exists order : list nat,
    Index.runStage c r
      (Index.mkStageEnv t0 (map (fun w => (w, answer)) order) t1) <> None.
Proof.
  destruct (can_drain Index.settle r c Index.stats0
              (exec Index.settle r (spawn c) (init_pool c Index.stats0))
              (reachable_inv _ _ _ _ _) (spawn_none_ready _ _ _ _) answer)
    as [order Horder].
  exists order. unfold Index.runStage, Index.run_workers, Index.schedule.
  cbn [Index.completions].
  unfold exec in *. rewrite fold_left_app.
  replace (flat_map Index.resume (map (fun w => (w, answer)) order))
    with (flat_map (fun w => [Settle w answer; Poll w]) order).
  - rewrite Horder. discriminate.
  - clear. induction order as [|w order IH]; cbn; [reflexivity|].
    now rewrite IH.
Qed.

(** ** The claims about the worker pool *)

(** C1.  In a stage with at least one worker, once every worker has
    returned, [completed + errors] equals [requestCount], and the task
    indices of the recorded outcomes are 0, ..., [requestCount - 1], each
    exactly once: none lost, none counted twice.  This holds for the pool of
    [runStage] in [index.js] and for the pool of [runStressTest] in
    [stress_test.js], whatever the order of completions. *)
Theorem outcomes_add_up (c r : nat) (env : Index.StageEnv)
        (senv : StressTest.RunEnv) :
  1 <= c ->
  (let st := Index.run_workers c r env in
   all_finished st = true ->
   Index.completed (stats st) + Index.errors (stats st) = r
   /\ Permutation (map fst (settled st)) (seq 0 r))
  /\
  (let st := StressTest.run_workers (StressTest.mkConfig r c) senv in
   all_finished st = true ->
   StressTest.completed (stats st) + StressTest.errors (stats st) = r
   /\ Permutation (map fst (settled st)) (seq 0 r)).
Proof.
  intros Hc. split; cbn zeta; intros Hall.
  - destruct (drained _ _ _ _ _ (index_run_inv c r env) Hc Hall)
      as (Hn & _ & Hperm).
    pose proof (index_tally c r env) as Ht. cbn zeta in Ht.
    split; [lia | exact Hperm].
  - pose proof (stress_run_inv (StressTest.mkConfig r c) senv) as Hinv.
    cbn [StressTest.NUM_USERS StressTest.CONCURRENCY] in Hinv.
    destruct (drained _ _ _ _ _ Hinv Hc Hall) as (Hn & _ & Hperm).
    pose proof (stress_tally (StressTest.mkConfig r c) senv) as Ht.
    cbn zeta in Ht. split; [lia | exact Hperm].
Qed.

Lemma outcomes_add_up_witness :
  (Index.completed (stats (Index.run_workers 2 3 demo_stage))
   + Index.errors (stats (Index.run_workers 2 3 demo_stage)) = 3
   /\ Permutation (map fst (settled (Index.run_workers 2 3 demo_stage)))
                  (seq 0 3))
  /\
  (StressTest.completed (stats (StressTest.run_workers demo_config demo_run))
   + StressTest.errors (stats (StressTest.run_workers demo_config demo_run))
   = 3
   /\ Permutation
        (map fst (settled (StressTest.run_workers demo_config demo_run)))
        (seq 0 3)).
Proof.
  destruct (outcomes_add_up 2 3 demo_stage demo_run (le_S 1 1 (le_n 1)))
    as [Hindex Hstress].
  split; [apply Hindex | apply Hstress]; reflexivity.
Defined.

(** The history of reads only grows. *)
Lemma issued_grows {St : Type} (settle : ActionEnv -> St -> St) (r : nat)
      (evs : list PoolEvent) : forall st : PoolState St,
  exists newer, issued (exec settle r evs st) = newer ++ issued st.
Proof.
  induction evs as [|ev evs IH]; intros st; cbn [exec fold_left].
  - now exists [].
  - destruct (IH (step settle r st ev)) as [newer Hnewer].
    unfold exec in Hnewer. rewrite Hnewer.
    destruct ev as [w|w env]; cbn [step];
      destruct (nth_error (workers st) w) as [[|i|]|];
      try (now exists newer).
    exists (newer ++ [(w, tasksStarted st)]).
    unfold poll. cbn [issued]. now rewrite <- app_assoc.
Qed.

(** C5.  Under any schedule, the values read from [tasksStarted] are
    0, 1, 2, ... in the order of the reads, so no value is read twice; a
    read that comes after [requestCount] earlier reads returns an index
    that is at least [requestCount]; and a worker that has read such an
    index has made no later read, and whatever happens next it stays
    finished and reads nothing more. *)
Theorem task_indices_unique_then_exhausted {St : Type}
        (settle : ActionEnv -> St -> St) (s0 : St) (c r : nat)
        (evs : list PoolEvent) :
  let st := exec settle r evs (init_pool c s0) in
  NoDup (map snd (issued st))
  /\ map snd (issued st) = indices_read (tasksStarted st)
  /\ (forall later w i earlier,
         issued st = later ++ (w, i) :: earlier ->
         i = length earlier /\ (r <= length earlier -> r <= i))
  /\ (forall later w i earlier,
         issued st = later ++ (w, i) :: earlier -> r <= i ->
         ~ In w (map fst later)
         /\ forall next,
             nth_error (workers (exec settle r next st)) w = Some Finished
             /\ exists newer,
                 issued (exec settle r next st) = newer ++ issued st
                 /\ ~ In w (map fst newer)).
Proof.
  cbn zeta.
  pose proof (reachable_inv settle r c s0 evs) as Hinv.
  set (st := exec settle r evs (init_pool c s0)) in *.
  pose proof Hinv as [_ _ _ Hiss _ _ _ Hlast].
  split; [rewrite Hiss; apply indices_read_NoDup|].
  split; [exact Hiss|].
  split.
  - intros later w i earlier Heq.
    rewrite Heq, map_app in Hiss. cbn in Hiss. symmetry in Hiss.
    apply indices_read_split in Hiss. rewrite length_map in Hiss. lia.
  - intros later w i earlier Heq Hi.
    split; [exact (Hlast _ _ _ _ Heq Hi)|].
    intros next.
    pose proof (exec_inv settle r c s0 next st Hinv)
      as [_ _ _ _ _ _ Hexh' Hlast'].
    destruct (issued_grows settle r next st) as [newer Hnewer].
    split.
    + apply (Hexh' w i); [|exact Hi].
      rewrite Hnewer, Heq. apply in_or_app. right.
      apply in_or_app. right. now left.
    + exists newer. split; [exact Hnewer|].
      rewrite Heq, app_assoc in Hnewer.
      specialize (Hlast' _ _ _ _ Hnewer Hi).
      rewrite map_app in Hlast'. intros Hin. apply Hlast'.
      apply in_or_app. now left.
Qed.

Lemma task_indices_unique_then_exhausted_witness :
  ~ In 1 (map fst (@nil (nat * nat)))
  /\ forall next,
      nth_error
        (workers
           (exec Index.settle 1 next
                 (exec Index.settle 1 (spawn 2) (init_pool 2 Index.stats0))))
        1
      = Some Finished
      /\ exists newer,
          issued
            (exec Index.settle 1 next
                  (exec Index.settle 1 (spawn 2) (init_pool 2 Index.stats0)))
          = newer
            ++ issued
                 (exec Index.settle 1 (spawn 2) (init_pool 2 Index.stats0))
          /\ ~ In 1 (map fst newer).
Proof.
  exact (proj2 (proj2 (proj2
           (task_indices_unique_then_exhausted
              Index.settle Index.stats0 2 1 (spawn 2))))
           [] 1 1 [(0, 0)] eq_refl (le_n 1)).
Defined.

(** C10.  At any point of a stage (any schedule played so far), the
    latency samples are exactly the durations of the units of work that
    succeeded, in the order they were recorded: there are [completed] of
    them and [totalDuration] is their sum; the failed ones are counted in
    [errors] only.  A failed unit of work leaves the samples, their sum and
    [completed] as they were; a successful one appends its duration.  Both
    scripts. *)
Theorem latency_samples_from_successes (c r : nat) (env : Index.StageEnv)
        (cfg : StressTest.Config) (senv : StressTest.RunEnv) :
  (let st := Index.run_workers c r env in
   Index.latencies (stats st) = durations (rev (answers st))
   /\ length (Index.latencies (stats st)) = Index.completed (stats st)
   /\ Index.totalDuration (stats st) = sum_Z (Index.latencies (stats st))
   /\ Index.errors (stats st)
      = length (filter (fun e => negb (answers_ok e)) (answers st)))
  /\
  (let st := StressTest.run_workers cfg senv in
   StressTest.latencies (stats st) = durations (rev (answers st))
   /\ length (StressTest.latencies (stats st))
      = StressTest.completed (stats st)
   /\ StressTest.totalDuration (stats st)
      = sum_Z (StressTest.latencies (stats st))
   /\ StressTest.errors (stats st)
      = length (filter (fun e => negb (answers_ok e)) (answers st)))
  /\
  (forall e s, answers_ok e = false ->
     Index.latencies (Index.settle e s) = Index.latencies s
     /\ Index.totalDuration (Index.settle e s) = Index.totalDuration s
     /\ Index.completed (Index.settle e s) = Index.completed s
     /\ Index.errors (Index.settle e s) = S (Index.errors s))
  /\
  (forall e s, answers_ok e = true ->
     Index.latencies (Index.settle e s)
     = Index.latencies s ++ [(now_end e - now_start e)%Z]
     /\ Index.totalDuration (Index.settle e s)
        = (Index.totalDuration s + (now_end e - now_start e))%Z
     /\ Index.completed (Index.settle e s) = S (Index.completed s)
     /\ Index.errors (Index.settle e s) = Index.errors s)
  /\
  (forall e s, answers_ok e = false ->
     StressTest.latencies (StressTest.settle e s) = StressTest.latencies s
     /\ StressTest.totalDuration (StressTest.settle e s)
        = StressTest.totalDuration s
     /\ StressTest.completed (StressTest.settle e s)
        = StressTest.completed s
     /\ StressTest.errors (StressTest.settle e s) = S (StressTest.errors s))
  /\
  (forall e s, answers_ok e = true ->
     StressTest.latencies (StressTest.settle e s)
     = StressTest.latencies s ++ [(now_end e - now_start e)%Z]
     /\ StressTest.totalDuration (StressTest.settle e s)
        = (StressTest.totalDuration s + (now_end e - now_start e))%Z
     /\ StressTest.completed (StressTest.settle e s)
        = S (StressTest.completed s)
     /\ StressTest.errors (StressTest.settle e s) = StressTest.errors s).
Proof.
  split; [|split; [|split; [|split; [|split]]]].
  - cbn zeta. destruct (index_run_inv c r env) as [_ _ _ _ _ -> _ _].
    destruct (index_stats_of_log (answers (Index.run_workers c r env)))
      as (Hlat & Hcomp & Herr & Hsum & _).
    rewrite Hcomp, Herr, Hsum, Hlat.
    unfold durations. rewrite length_map, filter_rev, length_rev.
    repeat split. now rewrite filter_rev, length_rev.
  - cbn zeta. destruct (stress_run_inv cfg senv) as [_ _ _ _ _ -> _ _].
    destruct (stress_stats_of_log (answers (StressTest.run_workers cfg senv)))
      as (Hlat & Hcomp & Herr & Hsum).
    rewrite Hcomp, Herr, Hsum, Hlat.
    unfold durations. rewrite length_map, filter_rev, length_rev.
    repeat split. now rewrite filter_rev, length_rev.
  - intros e s Hok. rewrite index_settle.
    destruct (caught e) as [err|] eqn:Hc.
    + cbn. repeat split.
    + apply answers_ok_caught in Hc. congruence.
  - intros e s Hok. rewrite index_settle.
    apply answers_ok_caught in Hok. rewrite Hok. cbn. repeat split.
  - intros e s Hok. rewrite stress_settle, Hok. cbn. repeat split.
  - intros e s Hok. rewrite stress_settle, Hok. cbn. repeat split.
Qed.

Lemma latency_samples_from_successes_witness :
  (Index.latencies (Index.settle env_timeout Index.stats0) = []
   /\ Index.errors (Index.settle env_timeout Index.stats0) = 1)
  /\ (Index.latencies (Index.settle env_ok Index.stats0) = [30%Z]
      /\ Index.completed (Index.settle env_ok Index.stats0) = 1)
  /\ (StressTest.latencies (StressTest.settle env_rejected StressTest.stats0)
      = []
      /\ StressTest.errors (StressTest.settle env_rejected StressTest.stats0)
         = 1)
  /\ (StressTest.latencies (StressTest.settle env_ok StressTest.stats0)
      = [30%Z]
      /\ StressTest.completed (StressTest.settle env_ok StressTest.stats0)
         = 1).
Proof.
  destruct (latency_samples_from_successes 2 3 demo_stage demo_config demo_run)
    as (_ & _ & Hfail & Hok & Hfail' & Hok').
  split; [|split; [|split]].
  - destruct (Hfail env_timeout Index.stats0 eq_refl) as (H1 & _ & _ & H2).
    split; [exact H1 | exact H2].
  - destruct (Hok env_ok Index.stats0 eq_refl) as (H1 & _ & H2 & _).
    split; [exact H1 | exact H2].
  - destruct (Hfail' env_rejected StressTest.stats0 eq_refl)
      as (H1 & _ & _ & H2).
    split; [exact H1 | exact H2].
  - destruct (Hok' env_ok StressTest.stats0 eq_refl) as (H1 & _ & H2 & _).
    split; [exact H1 | exact H2].
Defined.

(** ** The claim about the resource handle *)

(** C8.  Whatever the pool and the database answer, a unit of work that
    was granted a client makes exactly one [release] call, on that client
    and as its last call; a unit of work whose [pool.connect()] was
    rejected holds no client and makes no [release] call.  Both scripts;
    the function never throws, so these are all its exit paths. *)
Theorem handle_released_exactly_once (env : ActionEnv)
        (s : StressTest.Stats) :
  let run := Index.performUserAction env (enter tt) in
  let srun := StressTest.performUserAction env (enter s) in
  (exists result, snd run = Normal result)
  /\ snd srun = Normal tt
  /\ match connect_res env with
     | inr c =>
         released (pg (fst run)) = [c]
         /\ acquired (pg (fst run)) = [c]
         /\ (exists calls,
                pg (fst run)
                = PoolConnect (Some c) :: calls ++ [ClientRelease c]
                /\ released calls = [])
         /\ released (pg (fst srun)) = [c]
         /\ acquired (pg (fst srun)) = [c]
         /\ (exists calls,
                pg (fst srun)
                = PoolConnect (Some c) :: calls ++ [ClientRelease c]
                /\ released calls = [])
     | inl _ =>
         released (pg (fst run)) = []
         /\ acquired (pg (fst run)) = []
         /\ released (pg (fst srun)) = []
         /\ acquired (pg (fst srun)) = []
     end.
Proof.
  destruct env as [t0 [e|c] [e1|] [e2|] t1]; cbn;
    (split; [eexists; reflexivity|]);
    (split; [reflexivity|]);
    repeat split;
    try (exists [ClientQuery c INSERT; ClientQuery c SELECT];
         split; reflexivity);
    try (exists [ClientQuery c INSERT]; split; reflexivity).
Qed.

(** ** The figures of a stage *)

Lemma float_of_spec (x : float) (sf : spec_float) :
  Prim2SF x = sf -> x = SF2Prim sf.
Proof. intros <-. symmetry. apply SF2Prim_Prim2SF. Qed.

(** A counter is never a negative number. *)
Lemma num_of_nat_sign (n : nat) :
  match Prim2SF (num_of_nat n) with
  | S754_zero s | S754_infinity s | S754_finite s _ _ => s = false
  | S754_nan => True
  end.
Proof.
  unfold num_of_nat, num_of_Z.
  destruct (Z.ltb_spec (Z.of_nat n) 0) as [Hneg|_]; [lia|].
  rewrite of_uint63_spec. unfold binary_normalize.
  pose proof (Uint63.to_Z_bounded (Uint63.of_Z (Z.of_nat n))) as Hb.
  destruct (Uint63.to_Z (Uint63.of_Z (Z.of_nat n))) as [|p|p];
    [reflexivity| |lia].
  unfold binary_round.
  destruct (shl_align p 0 _) as [mz ez].
  unfold binary_round_aux.
  destruct (shr_fexp prec emax (Z.pos mz) ez loc_Exact) as [mrs' e'].
  destruct (shr_fexp prec emax _ e' loc_Exact) as [mrs'' e''].
  destruct (shr_m mrs''); [reflexivity| |exact I].
  destruct (Z.leb e'' (emax - prec)); reflexivity.
Qed.

(** Dividing a counter by zero seconds gives NaN or +Infinity. *)
Lemma counter_over_zero (n : nat) :
  (num_of_nat n / 0)%float = nan \/ (num_of_nat n / 0)%float = infinity.
Proof.
  pose proof (num_of_nat_sign n) as Hs.
  assert (H : Prim2SF (num_of_nat n / 0)
              = SF64div (Prim2SF (num_of_nat n)) (S754_zero false))
    by apply div_spec.
  unfold SF64div, SFdiv in H.
  destruct (Prim2SF (num_of_nat n)) as [s|s| |s m e]; try subst s;
    apply float_of_spec in H; cbn in H; auto.
Qed.

Lemma runStage_result c r env res :
  Index.runStage c r env = Some res ->
  all_finished (Index.run_workers c r env) = true
  /\ res = Index.stage_result c r (Index.startTime env) (Index.endTime env)
                              (stats (Index.run_workers c r env)).
Proof.
  unfold Index.runStage.
  destruct (all_finished (Index.run_workers c r env)); [|discriminate].
  intros H. injection H as <-. now split.
Qed.

Lemma index_run_stats c r env :
  let st := Index.run_workers c r env in
  Index.totalDuration (stats st) = sum_Z (Index.latencies (stats st))
  /\ length (Index.latencies (stats st)) = Index.completed (stats st)
  /\ Index.connErrors (stats st) = length (filter conn_failure (answers st)).
Proof.
  cbn zeta. destruct (index_run_inv c r env) as [_ _ _ _ _ -> _ _].
  destruct (index_stats_of_log (answers (Index.run_workers c r env)))
    as (Hlat & Hcomp & _ & Hsum & Hconn).
  rewrite Hsum, Hconn, Hcomp, Hlat. unfold durations.
  now rewrite length_map, !filter_rev, !length_rev.
Qed.

(** C2.  The verdict of a completed stage is [true] exactly when the
    stage counted a connection error or its error rate is strictly above
    [MAX_ERROR_RATE].  The connection-error counter counts the units of work
    that failed with code 53300 or a message containing "timeout"; one such
    failure makes the stage critical whatever the error rate, and an error
    rate equal to the threshold with no connection error does not. *)
Theorem critical_failure_iff (c r : nat) (env : Index.StageEnv)
        (res : Index.StageResult) :
  Index.runStage c r env = Some res ->
  let st := Index.run_workers c r env in
  (Index.hasCriticalFailure res = true
   <-> 0 < Index.connErrors (stats st)
       \/ (Index.MAX_ERROR_RATE <? Index.errorRate res)%float = true)
  /\ Index.errorRate res
     = (num_of_nat (Index.errors (stats st)) / num_of_nat r)%float
  /\ Index.connErrors (stats st)
     = length (filter conn_failure (answers st))
  /\ (0 < Index.connErrors (stats st) -> Index.hasCriticalFailure res = true)
  /\ (Index.connErrors (stats st) = 0 ->
      Index.errorRate res = Index.MAX_ERROR_RATE ->
      Index.hasCriticalFailure res = false).
Proof.
  intros Hrun. cbn zeta. apply runStage_result in Hrun as [_ ->].
  destruct (index_run_stats c r env) as (_ & _ & Hconn).
  set (s := stats (Index.run_workers c r env)) in *.
  unfold Index.stage_result.
  cbn [Index.hasCriticalFailure Index.errorRate].
  split; [|split; [reflexivity|split; [exact Hconn|split]]].
  - rewrite orb_true_iff, Nat.ltb_lt. reflexivity.
  - intros Hpos. apply Nat.ltb_lt in Hpos. now rewrite Hpos.
  - intros Hzero ->. rewrite Hzero. reflexivity.
Qed.

Lemma critical_failure_iff_witness :
  Index.hasCriticalFailure
    (Index.stage_result 2 3 1000 1050
                        (stats (Index.run_workers 2 3 demo_stage)))
  = true.
Proof.
  refine (proj1 (proj2 (proj2 (proj2
            (critical_failure_iff 2 3 demo_stage
               (Index.stage_result 2 3 1000 1050
                  (stats (Index.run_workers 2 3 demo_stage)))
               eq_refl)))) _).
  vm_compute. apply le_n.
Defined.

(** The figures of the specification: one connection error in 2000 requests is
    critical although the error rate is 0.0005; 100 plain errors in 2000
    requests give an error rate equal to the threshold, which is not
    critical; 101 are. *)
Example one_connection_error_in_2000 :
  let res := Index.stage_result 10 2000 0 4000
               (Index.mkStats 1999 1 59970 (repeat 30%Z 1999) 1) in
  Index.hasCriticalFailure res = true
  /\ Index.errorRate res = 0.0005%float
  /\ (Index.MAX_ERROR_RATE <? Index.errorRate res)%float = false.
Proof. vm_compute. repeat split. Qed.

Example error_rate_at_threshold :
  let res := Index.stage_result 10 2000 0 4000
               (Index.mkStats 1900 100 57000 (repeat 30%Z 1900) 0) in
  Index.errorRate res = Index.MAX_ERROR_RATE
  /\ Index.hasCriticalFailure res = false.
Proof. vm_compute. repeat split. Qed.

Example error_rate_above_threshold :
  let res := Index.stage_result 10 2000 0 4000
               (Index.mkStats 1899 101 56970 (repeat 30%Z 1899) 0) in
  Index.hasCriticalFailure res = true.
Proof. vm_compute. reflexivity. Qed.

Lemma runStressTest_result cfg env sum :
  StressTest.runStressTest cfg env = Some (StressTest.Ended sum) ->
  StressTest.setup_ok env = true
  /\ all_finished (StressTest.run_workers cfg env) = true
  /\ sum = StressTest.summary (StressTest.startTime env)
                              (StressTest.endTime env)
                              (stats (StressTest.run_workers cfg env)).
Proof.
  unfold StressTest.runStressTest.
  destruct (StressTest.setup_ok env); [|discriminate].
  destruct (all_finished (StressTest.run_workers cfg env)); [|discriminate].
  intros H. injection H as <-. now repeat split.
Qed.

(** C4, as the code has it.  The throughput of a completed stage is the
    binary64 quotient of [completed] by the elapsed seconds, and nothing
    guards the divisor: when the two clock readings are equal the result is
    NaN (always so when nothing completed) or +Infinity, never a number.
    The same holds of the throughput [runStressTest] prints. *)
Theorem throughput_is_unguarded_quotient (c r : nat) (env : Index.StageEnv)
        (res : Index.StageResult) :
  Index.runStage c r env = Some res ->
  let st := Index.run_workers c r env in
  let elapsed := (Index.endTime env - Index.startTime env)%Z in
  Index.throughput res
  = (num_of_nat (Index.completed (stats st)) / (num_of_Z elapsed / 1000))%float
  /\ (elapsed = 0%Z ->
      (Index.throughput res = nan \/ Index.throughput res = infinity)
      /\ Index.throughput res <> 0%float
      /\ (Index.completed (stats st) = 0 -> Index.throughput res = nan))
  /\ (forall cfg senv sum,
         StressTest.runStressTest cfg senv = Some (StressTest.Ended sum) ->
         StressTest.throughput sum
         = (num_of_nat
              (StressTest.completed
                 (stats (StressTest.run_workers cfg senv)))
            / (num_of_Z (StressTest.endTime senv - StressTest.startTime senv)
               / 1000))%float
         /\ (StressTest.endTime senv = StressTest.startTime senv ->
             StressTest.throughput sum = nan
             \/ StressTest.throughput sum = infinity)).
Proof.
  intros Hrun. cbn zeta. apply runStage_result in Hrun as [_ ->].
  unfold Index.stage_result. cbn [Index.throughput].
  split; [reflexivity|]. split.
  - intros ->. split; [apply counter_over_zero|]. split.
    + intros H.
      change (num_of_Z 0 / 1000)%float with 0%float in H.
      destruct (counter_over_zero
                  (Index.completed (stats (Index.run_workers c r env))))
        as [Hq|Hq]; rewrite Hq in H;
        apply (f_equal Prim2SF) in H; vm_compute in H; discriminate.
    + intros ->. reflexivity.
  - intros cfg senv sum Hsum.
    apply runStressTest_result in Hsum as (_ & _ & ->).
    unfold StressTest.summary. cbn [StressTest.throughput].
    split; [reflexivity|].
    intros ->. rewrite Z.sub_diag. apply counter_over_zero.
Qed.

Lemma throughput_is_unguarded_quotient_witness :
  Index.throughput
    (Index.stage_result 1 1 1000 1000
                        (stats (Index.run_workers 1 1 instant_stage)))
  = nan
  \/ Index.throughput
       (Index.stage_result 1 1 1000 1000
                           (stats (Index.run_workers 1 1 instant_stage)))
     = infinity.
Proof.
  exact (proj1 (proj1 (proj2
           (throughput_is_unguarded_quotient 1 1 instant_stage
              (Index.stage_result 1 1 1000 1000
                 (stats (Index.run_workers 1 1 instant_stage)))
              eq_refl)) eq_refl)).
Defined.

(** C4 as stated fails: a stage whose clock readings are equal (elapsed
    time 0, so "less than or equal to 0") and in which one request
    completed reports a throughput of +Infinity, not 0; with no request at
    all it reports NaN; and when the clock went back by a second during the
    stage it reports -1. *)
Lemma throughput_at_zero_elapsed_counterexample :
  ((Index.endTime instant_stage - Index.startTime instant_stage <= 0)%Z
   /\ option_map Index.throughput (Index.runStage 1 1 instant_stage)
      = Some infinity
   /\ infinity <> 0%float)
  /\ ((Index.endTime idle_stage - Index.startTime idle_stage <= 0)%Z
      /\ option_map Index.throughput (Index.runStage 1 0 idle_stage)
         = Some nan
      /\ nan <> 0%float)
  /\ ((Index.endTime rewound_stage - Index.startTime rewound_stage <= 0)%Z
      /\ option_map Index.throughput (Index.runStage 1 1 rewound_stage)
         = Some (-1)%float
      /\ (-1)%float <> 0%float).
Proof.
  repeat split; try (cbn; lia);
    intros H; apply (f_equal Prim2SF) in H; vm_compute in H; discriminate.
Qed.

(** C9.  The average latency of a completed stage is the sum of the
    recorded latency samples divided by [completed] when something
    completed, and 0 otherwise. *)
Theorem average_latency (c r : nat) (env : Index.StageEnv)
        (res : Index.StageResult) :
  Index.runStage c r env = Some res ->
  let s := stats (Index.run_workers c r env) in
  (0 < Index.completed s ->
   Index.avgLatency res
   = (num_of_Z (sum_Z (Index.latencies s))
      / num_of_nat (Index.completed s))%float)
  /\ (Index.completed s = 0 -> Index.avgLatency res = 0%float)
  /\ Index.totalDuration s = sum_Z (Index.latencies s)
  /\ length (Index.latencies s) = Index.completed s.
Proof.
  intros Hrun. cbn zeta. apply runStage_result in Hrun as [_ ->].
  destruct (index_run_stats c r env) as (Hsum & Hlen & _).
  unfold Index.stage_result. cbn [Index.avgLatency].
  split; [|split; [|split; assumption]].
  - intros Hpos. apply Nat.ltb_lt in Hpos. now rewrite Hpos, Hsum.
  - intros ->. reflexivity.
Qed.

Lemma average_latency_witness :
  Index.avgLatency
    (Index.stage_result 2 3 1000 1050
                        (stats (Index.run_workers 2 3 demo_stage)))
  = (num_of_Z
       (sum_Z (Index.latencies (stats (Index.run_workers 2 3 demo_stage))))
     / num_of_nat
         (Index.completed (stats (Index.run_workers 2 3 demo_stage))))%float
  /\ Index.avgLatency
       (Index.stage_result 1 1 1000 1040
          (stats (Index.run_workers 1 1
                    (Index.mkStageEnv 1000 [(0, env_timeout)] 1040))))
     = 0%float.
Proof.
  split.
  - refine (proj1 (average_latency 2 3 demo_stage
                     (Index.stage_result 2 3 1000 1050
                        (stats (Index.run_workers 2 3 demo_stage)))
                     eq_refl) _).
    vm_compute. apply le_n.
  - exact (proj1 (proj2 (average_latency 1 1
                    (Index.mkStageEnv 1000 [(0, env_timeout)] 1040)
                    (Index.stage_result 1 1 1000 1040
                       (stats
                          (Index.run_workers 1 1
                             (Index.mkStageEnv 1000 [(0, env_timeout)] 1040))))
                    eq_refl)) eq_refl).
Defined.

Example average_latency_of_demo_stage :
  option_map Index.avgLatency (Index.runStage 2 3 demo_stage) = Some 30%float.
Proof. reflexivity. Qed.

(** ** Percentiles *)

Lemma insert_sorted_perm x l :
  Permutation (x :: l) (StressTest.insert_sorted x l).
Proof.
  induction l as [|y l IH]; cbn; [reflexivity|].
  destruct (x <=? y)%Z; [reflexivity|].
  rewrite perm_swap. now apply perm_skip.
Qed.

(** [sort] rearranges the samples *)
Lemma sort_perm l : Permutation l (StressTest.sort l).
Proof.
  induction l as [|x l IH]; cbn; [reflexivity|].
  rewrite <- insert_sorted_perm. now apply perm_skip.
Qed.

Lemma insert_sorted_sorted x l :
  Sorted Z.le l -> Sorted Z.le (StressTest.insert_sorted x l).
Proof.
  induction 1 as [|y l Hs IH Hhd]; cbn.
  - repeat constructor.
  - destruct (Z.leb_spec x y).
    + repeat constructor; assumption.
    + constructor; [exact IH|].
      destruct l as [|z l]; cbn.
      * constructor. lia.
      * destruct (Z.leb_spec x z); constructor; try lia.
        now inversion Hhd.
Qed.

(** into ascending order. *)
Lemma sort_sorted l : Sorted Z.le (StressTest.sort l).
Proof.
  induction l as [|x l IH]; cbn; [constructor|].
  now apply insert_sorted_sorted.
Qed.

(** C3, as the code has it.  On the samples 10, 20, ..., 1000 the index
    [Math.floor((p / 100) * 100)] is 50 for p = 50 and 99 for p = 99 in
    binary64, and [getPercentile] returns the sorted sample at that
    zero-based index: 510, the 51st smallest, and 1000, the 100th. *)
Theorem percentile_of_fixture :
  StressTest.sort fixture = fixture
  /\ length fixture = 100
  /\ Math_floor ((50 / 100) * num_of_nat 100)%float = Some 50%Z
  /\ Math_floor ((99 / 100) * num_of_nat 100)%float = Some 99%Z
  /\ StressTest.getPercentile (StressTest.sort fixture) 50 = Some 510%Z
  /\ StressTest.getPercentile (StressTest.sort fixture) 99 = Some 1000%Z
  /\ nth_error fixture 50 = Some 510%Z
  /\ nth_error fixture 49 = Some 500%Z
  /\ nth_error fixture 99 = Some 1000%Z
  /\ nth_error fixture 98 = Some 990%Z.
Proof. vm_compute. repeat split. Qed.

(** C3 as stated fails: p50 is not 500 and p99 is not 990. *)
Lemma percentile_of_fixture_counterexample :
  StressTest.getPercentile (StressTest.sort fixture) 50 <> Some 500%Z
  /\ StressTest.getPercentile (StressTest.sort fixture) 99 <> Some 990%Z.
Proof.
  vm_compute. split; discriminate.
Qed.

(** ** The ramp-up *)

Lemma ramp_unfold fuel cfg envs cur rep :
  Index.ramp (S fuel) cfg envs cur rep
  = if cur <=? Index.MAX_CONCURRENCY cfg then
      match Index.runStage cur (Index.STAGE_REQUESTS cfg)
                           (envs (length rep)) with
      | None => None
      | Some result =>
          if Index.hasCriticalFailure result then
            Some (Index.mkRunReport (rep ++ [result])
                    (Index.StoppedOnFailure
                       (Z.of_nat cur
                        - Z.of_nat (Index.CONCURRENCY_STEP cfg))))
          else
            Index.ramp fuel cfg envs (cur + Index.CONCURRENCY_STEP cfg)
                       (rep ++ [result])
      end
    else Some (Index.mkRunReport rep Index.StoppedAtCeiling).
Proof. reflexivity. Qed.

Lemma runStage_concurrency c r env res :
  Index.runStage c r env = Some res -> Index.concurrency res = c.
Proof. intros H. apply runStage_result in H as [_ ->]. reflexivity. Qed.

(** What a finished loop leaves: the results appended to the report are
    those of the stages at [cur], [cur + step], ..., in order, each at most
    at the ceiling; only the last one can be critical, and it is exactly
    when the loop was left through [break]. *)
Lemma ramp_spec fuel cfg envs : forall cur rep out,
  Index.ramp fuel cfg envs cur rep = Some out ->
  exists news,
    Index.report out = rep ++ news
    /\ (forall k res, nth_error news k = Some res ->
          Index.runStage (cur + k * Index.CONCURRENCY_STEP cfg)
                         (Index.STAGE_REQUESTS cfg)
                         (envs (length rep + k)) = Some res
          /\ cur + k * Index.CONCURRENCY_STEP cfg
             <= Index.MAX_CONCURRENCY cfg)
    /\ match Index.terminal out with
       | Index.StoppedOnFailure limit =>
           exists pre res,
             news = pre ++ [res]
             /\ forallb (fun r => negb (Index.hasCriticalFailure r)) pre = true
             /\ Index.hasCriticalFailure res = true
             /\ limit
                = (Z.of_nat (cur + length pre * Index.CONCURRENCY_STEP cfg)
                   - Z.of_nat (Index.CONCURRENCY_STEP cfg))%Z
       | Index.StoppedAtCeiling =>
           forallb (fun r => negb (Index.hasCriticalFailure r)) news = true
           /\ Index.MAX_CONCURRENCY cfg
              < cur + length news * Index.CONCURRENCY_STEP cfg
       end.
Proof.
  induction fuel as [|fuel IH]; intros cur rep out Hrun; [discriminate|].
  rewrite ramp_unfold in Hrun.
  destruct (Nat.leb_spec cur (Index.MAX_CONCURRENCY cfg)) as [Hle|Hgt].
  - destruct (Index.runStage cur (Index.STAGE_REQUESTS cfg)
                             (envs (length rep))) as [result|] eqn:Hstage;
      [|discriminate].
    destruct (Index.hasCriticalFailure result) eqn:Hcrit.
    + injection Hrun as <-. exists [result]. cbn.
      split; [reflexivity|]. split.
      * intros [|k] res Hk; cbn in Hk; [|now destruct k].
        injection Hk as <-. rewrite !Nat.add_0_r. now split.
      * exists [], result. cbn. rewrite Nat.add_0_r. now repeat split.
    + destruct (IH _ _ _ Hrun) as (news & Hrep & Hstages & Hterm).
      exists (result :: news). split; [|split].
      * rewrite Hrep, <- app_assoc. reflexivity.
      * intros [|k] res Hk; cbn in Hk.
        -- injection Hk as <-. rewrite !Nat.add_0_r. now split.
        -- destruct (Hstages _ _ Hk) as [Hs Hb].
           rewrite length_app in Hs. cbn in Hs.
           replace (length rep + S k) with (length rep + 1 + k) by lia.
           replace (cur + S k * Index.CONCURRENCY_STEP cfg)
             with (cur + Index.CONCURRENCY_STEP cfg
                   + k * Index.CONCURRENCY_STEP cfg) by lia.
           now split.
      * destruct (Index.terminal out) as [limit|].
        -- destruct Hterm as (pre & res & -> & Hpre & Hres & ->).
           exists (result :: pre), res. cbn. rewrite Hcrit, Hpre.
           repeat split; [assumption|]. f_equal. f_equal. lia.
        -- destruct Hterm as [Hall Hceil]. cbn. rewrite Hcrit, Hall.
           split; [reflexivity|]. lia.
  - injection Hrun as <-. exists []. cbn. rewrite app_nil_r.
    split; [reflexivity|]. split.
    + intros [|k] res Hk; discriminate.
    + split; [reflexivity|]. lia.
Qed.

(** More fuel does not change the outcome of a loop that ended. *)
Lemma ramp_more_fuel fuel cfg envs : forall cur rep out,
  Index.ramp fuel cfg envs cur rep = Some out ->
  Index.ramp (S fuel) cfg envs cur rep = Some out.
Proof.
  induction fuel as [|fuel IH]; intros cur rep out Hrun; [discriminate|].
  rewrite ramp_unfold in Hrun. rewrite ramp_unfold.
  destruct (cur <=? Index.MAX_CONCURRENCY cfg); [|exact Hrun].
  destruct (Index.runStage cur (Index.STAGE_REQUESTS cfg)
                           (envs (length rep))) as [result|];
    [|discriminate].
  destruct (Index.hasCriticalFailure result); [exact Hrun|].
  now apply IH.
Qed.

(** With a positive step and stages that all finish, the loop ends. *)
Lemma ramp_terminates cfg envs :
  1 <= Index.CONCURRENCY_STEP cfg ->
  (forall c n, Index.runStage c (Index.STAGE_REQUESTS cfg) (envs n) <> None) ->
  forall cur rep, exists fuel, Index.ramp fuel cfg envs cur rep <> None.
Proof.
  intros Hstep Hstages cur.
  remember (S (Index.MAX_CONCURRENCY cfg) - cur) as gap eqn:Hgap.
  revert cur Hgap.
  induction gap as [gap IH] using lt_wf_ind; intros cur Hgap rep.
  destruct (Nat.leb_spec cur (Index.MAX_CONCURRENCY cfg)) as [Hle|Hgt].
  - destruct (Index.runStage cur (Index.STAGE_REQUESTS cfg)
                             (envs (length rep))) as [result|] eqn:Hstage;
      [|now apply Hstages in Hstage].
    destruct (Index.hasCriticalFailure result) eqn:Hcrit.
    + exists 1. rewrite ramp_unfold.
      destruct (Nat.leb_spec cur (Index.MAX_CONCURRENCY cfg)); [|lia].
      rewrite Hstage, Hcrit. discriminate.
    + destruct (IH (S (Index.MAX_CONCURRENCY cfg)
                    - (cur + Index.CONCURRENCY_STEP cfg)))
        with (cur := cur + Index.CONCURRENCY_STEP cfg)
             (rep := rep ++ [result]) as [fuel Hfuel];
        [lia | reflexivity |].
      exists (S fuel). rewrite ramp_unfold.
      destruct (Nat.leb_spec cur (Index.MAX_CONCURRENCY cfg)); [|lia].
      now rewrite Hstage, Hcrit.
  - exists 1. rewrite ramp_unfold.
    destruct (Nat.leb_spec cur (Index.MAX_CONCURRENCY cfg)); [lia|].
    discriminate.
Qed.

Lemma critical_is_last {A : Type} (p : A -> bool) :
  forall before x after pre y,
    before ++ x :: after = pre ++ [y] ->
    forallb (fun r => negb (p r)) pre = true ->
    p x = true ->
    after = [] /\ before = pre /\ x = y.
Proof.
  induction before as [|b before IH]; intros x after [|a pre] y Heq Hpre Hx;
    cbn in *.
  - injection Heq as -> ->. now repeat split.
  - injection Heq as -> _. rewrite Hx in Hpre. discriminate.
  - injection Heq as _ Heq. now destruct before.
  - injection Heq as -> Heq.
    apply andb_prop in Hpre as [_ Hpre].
    destruct (IH _ _ _ _ Heq Hpre Hx) as (-> & -> & ->). now repeat split.
Qed.

(** The failure exit of the loop, as a run: when the stages at [cur],
    [cur + step], ... finish, the first [n] of them are not critical and
    the next one is, [S n] units of fuel are enough, the loop pushes all
    [S n] results and leaves through [break]. *)
Lemma ramp_stops_at_failure cfg envs (res : nat -> Index.StageResult) :
  forall n fuel cur rep,
    n < fuel ->
    cur + n * Index.CONCURRENCY_STEP cfg <= Index.MAX_CONCURRENCY cfg ->
    (forall j, j <= n ->
       Index.runStage (cur + j * Index.CONCURRENCY_STEP cfg)
                      (Index.STAGE_REQUESTS cfg) (envs (length rep + j))
       = Some (res (length rep + j))) ->
    (forall j, j < n ->
       Index.hasCriticalFailure (res (length rep + j)) = false) ->
    Index.hasCriticalFailure (res (length rep + n)) = true ->
    Index.ramp fuel cfg envs cur rep
    = Some (Index.mkRunReport
              (rep ++ map res (seq (length rep) n) ++ [res (length rep + n)])
              (Index.StoppedOnFailure
                 (Z.of_nat (cur + n * Index.CONCURRENCY_STEP cfg)
                  - Z.of_nat (Index.CONCURRENCY_STEP cfg)))).
Proof.
  induction n as [|n IH]; intros fuel cur rep Hfuel Hmax Hrun Hcalm Hcrit.
  - destruct fuel as [|fuel]; [lia|].
    rewrite ramp_unfold.
    replace (cur <=? Index.MAX_CONCURRENCY cfg) with true
      by (symmetry; apply Nat.leb_le; lia).
    specialize (Hrun 0 (Nat.le_refl 0)).
    rewrite Nat.mul_0_l, !Nat.add_0_r in Hrun. rewrite Hrun.
    rewrite Nat.add_0_r in Hcrit. rewrite Hcrit.
    cbn [seq map app]. now rewrite Nat.mul_0_l, !Nat.add_0_r.
  - destruct fuel as [|fuel]; [lia|].
    rewrite ramp_unfold.
    replace (cur <=? Index.MAX_CONCURRENCY cfg) with true
      by (symmetry; apply Nat.leb_le; lia).
    pose proof (Hrun 0 (Nat.le_0_l _)) as Hfirst.
    rewrite Nat.mul_0_l, !Nat.add_0_r in Hfirst. rewrite Hfirst.
    pose proof (Hcalm 0 (Nat.lt_0_succ _)) as Hquiet.
    rewrite Nat.add_0_r in Hquiet. rewrite Hquiet.
    rewrite (IH fuel (cur + Index.CONCURRENCY_STEP cfg)
                (rep ++ [res (length rep)])).
    + rewrite length_app. cbn [length].
      replace (length rep + 1) with (S (length rep)) by lia.
      replace (S (length rep) + n) with (length rep + S n) by lia.
      replace (cur + Index.CONCURRENCY_STEP cfg
               + n * Index.CONCURRENCY_STEP cfg)
        with (cur + S n * Index.CONCURRENCY_STEP cfg) by lia.
      cbn [seq map]. now rewrite <- app_assoc.
    + lia.
    + lia.
    + intros j Hj. rewrite length_app. cbn [length].
      replace (length rep + 1 + j) with (length rep + S j) by lia.
      replace (cur + Index.CONCURRENCY_STEP cfg
               + j * Index.CONCURRENCY_STEP cfg)
        with (cur + S j * Index.CONCURRENCY_STEP cfg) by lia.
      apply Hrun. lia.
    + intros j Hj. rewrite length_app. cbn [length].
      replace (length rep + 1 + j) with (length rep + S j) by lia.
      apply Hcalm. lia.
    + rewrite length_app. cbn [length].
      replace (length rep + 1 + n) with (length rep + S n) by lia.
      exact Hcrit.
Qed.

(** In a finished progressive run nothing follows a critical result: it
    is the last entry of the report, the loop was left through [break]
    with the limit computed from that stage, and the entries before it
    are not critical. *)
Lemma critical_result_is_final (fuel : nat) (cfg : Index.Config)
      (env : Index.RunEnv) (out : Index.RunReport)
      (before : list Index.StageResult) (res : Index.StageResult)
      (after : list Index.StageResult) :
  Index.runProgressiveTest fuel cfg env = Some (Index.Ended out) ->
  Index.report out = before ++ res :: after ->
  Index.hasCriticalFailure res = true ->
  after = []
  /\ Index.terminal out
     = Index.StoppedOnFailure
         (Z.of_nat (Index.concurrency res)
          - Z.of_nat (Index.CONCURRENCY_STEP cfg))
  /\ Index.concurrency res
     = Index.INITIAL_CONCURRENCY cfg
       + length before * Index.CONCURRENCY_STEP cfg
  /\ forallb (fun r => negb (Index.hasCriticalFailure r)) before = true.
Proof.
  unfold Index.runProgressiveTest. intros Hrun Hrep Hcrit.
  destruct (Index.setup_ok env); [|discriminate].
  destruct (Index.ramp fuel cfg (Index.stage_env env)
                       (Index.INITIAL_CONCURRENCY cfg) []) as [out'|] eqn:Hramp;
    [|discriminate].
  cbn in Hrun. injection Hrun as ->.
  destruct (ramp_spec _ _ _ _ _ _ Hramp) as (news & Hnews & Hstages & Hterm).
  cbn in Hnews. rewrite Hnews in Hrep. subst news.
  destruct (Index.terminal out) as [limit|].
  - destruct Hterm as (pre & last & Heq & Hpre & _ & ->).
    destruct (critical_is_last Index.hasCriticalFailure _ _ _ _ _
                               Heq Hpre Hcrit) as (-> & -> & ->).
    destruct (Hstages (length pre) last) as [Hstage _].
    { rewrite nth_error_app2 by lia. now rewrite Nat.sub_diag. }
    apply runStage_concurrency in Hstage. rewrite Hstage.
    now repeat split.
  - destruct Hterm as [Hall _].
    rewrite forallb_forall in Hall.
    specialize (Hall res). rewrite Hcrit in Hall.
    discriminate Hall. apply in_or_app. right. now left.
Qed.

(** C6.  When the table setup succeeds and the stage at some concurrency
    level (the initial one plus [n] steps, within the ceiling) reports a
    critical failure, the stages before it having finished without one,
    the controller runs no further stage: with more than [n] units of fuel
    the progressive run ends, its report is the results of the [n] earlier
    stages followed by the result of that stage as last entry, and its
    terminal state is [StoppedOnFailure] with stable limit the concurrency
    of that stage minus the step.  The concurrency recorded in that result
    is the level it ran at, and in every finished run of this
    configuration and environment a critical result has nothing after
    it. *)
Theorem stops_at_first_critical_failure (fuel : nat) (cfg : Index.Config)
        (env : Index.RunEnv) (res : nat -> Index.StageResult) (n : nat) :
  Index.setup_ok env = true ->
  n < fuel ->
  Index.INITIAL_CONCURRENCY cfg + n * Index.CONCURRENCY_STEP cfg
  <= Index.MAX_CONCURRENCY cfg ->
  (forall k, k <= n ->
     Index.runStage
       (Index.INITIAL_CONCURRENCY cfg + k * Index.CONCURRENCY_STEP cfg)
       (Index.STAGE_REQUESTS cfg) (Index.stage_env env k)
     = Some (res k)) ->
  (forall k, k < n -> Index.hasCriticalFailure (res k) = false) ->
  Index.hasCriticalFailure (res n) = true ->
  Index.runProgressiveTest fuel cfg env
  = Some (Index.Ended
            (Index.mkRunReport
               (map res (seq 0 n) ++ [res n])
               (Index.StoppedOnFailure
                  (Z.of_nat (Index.concurrency (res n))
                   - Z.of_nat (Index.CONCURRENCY_STEP cfg)))))
  /\ Index.concurrency (res n)
     = Index.INITIAL_CONCURRENCY cfg + n * Index.CONCURRENCY_STEP cfg
  /\ (forall fuel' out before r after,
        Index.runProgressiveTest fuel' cfg env = Some (Index.Ended out) ->
        Index.report out = before ++ r :: after ->
        Index.hasCriticalFailure r = true ->
        after = []
        /\ Index.terminal out
           = Index.StoppedOnFailure
               (Z.of_nat (Index.concurrency r)
                - Z.of_nat (Index.CONCURRENCY_STEP cfg))
        /\ Index.concurrency r
           = Index.INITIAL_CONCURRENCY cfg
             + length before * Index.CONCURRENCY_STEP cfg
        /\ forallb (fun r' => negb (Index.hasCriticalFailure r')) before
           = true).
Proof.
  intros Hsetup Hfuel Hmax Hrun Hcalm Hcrit.
  assert (Hlevel : Index.concurrency (res n)
                   = Index.INITIAL_CONCURRENCY cfg
                     + n * Index.CONCURRENCY_STEP cfg)
    by exact (runStage_concurrency _ _ _ _ (Hrun n (Nat.le_refl n))).
  split; [|split; [exact Hlevel|]].
  - unfold Index.runProgressiveTest. rewrite Hsetup.
    rewrite (ramp_stops_at_failure cfg (Index.stage_env env) res n fuel
               (Index.INITIAL_CONCURRENCY cfg) [] Hfuel Hmax Hrun Hcalm Hcrit).
    cbn [length app option_map Nat.add]. now rewrite Hlevel.
  - intros fuel' out before r after.
    apply critical_result_is_final.
Qed.

Lemma stops_at_first_critical_failure_witness :
  Index.runProgressiveTest 5 demo_ramp_config demo_ramp_env
  = Some (Index.Ended (Index.mkRunReport demo_ramp_report
                                         (Index.StoppedOnFailure 20)))
  /\ Index.concurrency (demo_ramp_result 2) = 30.
Proof.
  assert (Hstages : forall k, k <= 2 ->
            Index.runStage
              (Index.INITIAL_CONCURRENCY demo_ramp_config
               + k * Index.CONCURRENCY_STEP demo_ramp_config)
              (Index.STAGE_REQUESTS demo_ramp_config)
              (Index.stage_env demo_ramp_env k)
            = Some (demo_ramp_result k)).
  { intros [|[|[|k]]] Hk; [reflexivity | reflexivity | reflexivity | lia]. }
  assert (Hcalm : forall k, k < 2 ->
            Index.hasCriticalFailure (demo_ramp_result k) = false).
  { intros [|[|k]] Hk; [reflexivity | reflexivity | lia]. }
  assert (Hmax : Index.INITIAL_CONCURRENCY demo_ramp_config
                 + 2 * Index.CONCURRENCY_STEP demo_ramp_config
                 <= Index.MAX_CONCURRENCY demo_ramp_config)
    by (cbn; lia).
  assert (Hfuel : 2 < 5) by lia.
  destruct (stops_at_first_critical_failure 5 demo_ramp_config demo_ramp_env
              demo_ramp_result 2 eq_refl Hfuel Hmax Hstages Hcalm eq_refl)
    as (Hrun & Hlevel & _).
  split; [exact Hrun | exact Hlevel].
Defined.

(** C7.  With an initial concurrency of 10, a step of 10 and a ceiling of
    30, if the stages at 10, 20 and 30 finish without a critical failure,
    the run executes exactly these three stages: its report is their three
    results in that order, and the loop is left through its condition
    (the next concurrency, 40, is above the ceiling). *)
Theorem three_stages_up_to_ceiling (fuel n : nat) (env : Index.RunEnv)
        (r1 r2 r3 : Index.StageResult) :
  4 <= fuel ->
  Index.setup_ok env = true ->
  Index.runStage 10 n (Index.stage_env env 0) = Some r1 ->
  Index.hasCriticalFailure r1 = false ->
  Index.runStage 20 n (Index.stage_env env 1) = Some r2 ->
  Index.hasCriticalFailure r2 = false ->
  Index.runStage 30 n (Index.stage_env env 2) = Some r3 ->
  Index.hasCriticalFailure r3 = false ->
  Index.runProgressiveTest fuel (Index.mkConfig n 10 10 30) env
  = Some (Index.Ended (Index.mkRunReport [r1; r2; r3] Index.StoppedAtCeiling))
  /\ map Index.concurrency [r1; r2; r3] = [10; 20; 30].
Proof.
  intros Hfuel Hsetup H1 C1 H2 C2 H3 C3.
  destruct fuel as [|[|[|[|fuel]]]]; try lia.
  unfold Index.runProgressiveTest. rewrite Hsetup.
  cbn [Index.INITIAL_CONCURRENCY].
  rewrite ramp_unfold.
  cbn [Index.MAX_CONCURRENCY Index.STAGE_REQUESTS Index.CONCURRENCY_STEP
       length app].
  change (10 <=? 30) with true. cbv iota.
  rewrite H1, C1, ramp_unfold.
  cbn [Index.MAX_CONCURRENCY Index.STAGE_REQUESTS Index.CONCURRENCY_STEP
       length app].
  change (10 + 10 <=? 30) with true. cbv iota.
  change (10 + 10) with 20. rewrite H2, C2, ramp_unfold.
  cbn [Index.MAX_CONCURRENCY Index.STAGE_REQUESTS Index.CONCURRENCY_STEP
       length app].
  change (20 + 10 <=? 30) with true. cbv iota.
  change (20 + 10) with 30. rewrite H3, C3, ramp_unfold.
  cbn [Index.MAX_CONCURRENCY].
  change (30 + 10 <=? 30) with false. cbv iota.
  split; [reflexivity|].
  cbn [map].
  now rewrite (runStage_concurrency _ _ _ _ H1),
              (runStage_concurrency _ _ _ _ H2),
              (runStage_concurrency _ _ _ _ H3).
Qed.

Lemma three_stages_up_to_ceiling_witness :
  Index.runProgressiveTest 4 (Index.mkConfig 1 10 10 30) calm_ramp_env
  = Some (Index.Ended
            (Index.mkRunReport
               [Index.stage_result 10 1 1000 1040
                  (Index.settle env_ok Index.stats0);
                Index.stage_result 20 1 1000 1040
                  (Index.settle env_ok Index.stats0);
                Index.stage_result 30 1 1000 1040
                  (Index.settle env_ok Index.stats0)]
               Index.StoppedAtCeiling)).
Proof.
  exact (proj1
           (three_stages_up_to_ceiling 4 1 calm_ramp_env
              (Index.stage_result 10 1 1000 1040
                 (Index.settle env_ok Index.stats0))
              (Index.stage_result 20 1 1000 1040
                 (Index.settle env_ok Index.stats0))
              (Index.stage_result 30 1 1000 1040
                 (Index.settle env_ok Index.stats0))
              (le_n 4) eq_refl eq_refl eq_refl eq_refl eq_refl
              eq_refl eq_refl)).
Defined.

(** ** The scripts with their own constants *)

(** The report of a finished run lists the stages in ascending
    concurrency, one step apart, none above the ceiling. *)
Lemma report_ascending fuel cfg env out k res :
  Index.runProgressiveTest fuel cfg env = Some (Index.Ended out) ->
  nth_error (Index.report out) k = Some res ->
  Index.concurrency res
  = Index.INITIAL_CONCURRENCY cfg + k * Index.CONCURRENCY_STEP cfg
  /\ Index.concurrency res <= Index.MAX_CONCURRENCY cfg.
Proof.
  unfold Index.runProgressiveTest. intros Hrun Hk.
  destruct (Index.setup_ok env); [|discriminate].
  destruct (Index.ramp fuel cfg (Index.stage_env env)
                       (Index.INITIAL_CONCURRENCY cfg) []) as [out'|] eqn:Hramp;
    [|discriminate].
  cbn in Hrun. injection Hrun as ->.
  destruct (ramp_spec _ _ _ _ _ _ Hramp) as (news & Hnews & Hstages & _).
  cbn in Hnews. rewrite Hnews in Hk.
  destruct (Hstages _ _ Hk) as [Hstage Hle].
  apply runStage_concurrency in Hstage. lia.
Qed.

(** With the constants of [index.js] (10 to 500 in steps of 10, 2000
    requests per stage) a run in which every stage finishes ends, and its
    report has at most 50 entries. *)
Lemma source_run_ends env :
  Index.setup_ok env = true ->
  (forall c n, Index.runStage c 2000 (Index.stage_env env n) <> None) ->
  exists fuel, Index.runProgressiveTest fuel Index.config env <> None.
Proof.
  intros Hsetup Hstages.
  destruct (ramp_terminates Index.config (Index.stage_env env)
              ltac:(cbn; lia) Hstages 10 []) as [fuel Hfuel].
  exists fuel. unfold Index.runProgressiveTest. rewrite Hsetup.
  cbn [Index.INITIAL_CONCURRENCY Index.config].
  destruct (Index.ramp fuel Index.config (Index.stage_env env) 10 []);
    [discriminate | contradiction].
Qed.

Lemma source_run_at_most_50_stages fuel env out :
  Index.runProgressiveTest fuel Index.config env = Some (Index.Ended out) ->
  length (Index.report out) <= 50.
Proof.
  intros Hrun.
  destruct (Nat.le_gt_cases (length (Index.report out)) 50) as [Hle|Hgt];
    [exact Hle|].
  destruct (nth_error (Index.report out) 50) as [res|] eqn:Hres.
  - destruct (report_ascending _ _ _ _ _ _ Hrun Hres) as [Hc Hmax].
    cbn in Hc, Hmax. lia.
  - apply nth_error_None in Hres. lia.
Qed.

(** With the constants of [stress_test.js], a run whose workers have all
    returned has recorded one outcome for each of the 1000000 requests. *)
Lemma source_stress_total env :
  let st := StressTest.run_workers StressTest.config env in
  all_finished st = true ->
  StressTest.completed (stats st) + StressTest.errors (stats st)
  = Z.to_nat 1000000.
Proof.
  cbn zeta. intros Hall.
  pose proof (stress_run_inv StressTest.config env) as Hinv.
  cbn [StressTest.NUM_USERS StressTest.CONCURRENCY StressTest.config] in Hinv.
  destruct (drained _ _ _ _ _ Hinv ltac:(lia) Hall) as (Hn & _ & _).
  pose proof (stress_tally StressTest.config env) as Ht.
  cbn zeta in Ht. lia.
Qed.

(** ** The table setup *)

Lemma setup_completion (env : Setup.SetupEnv) :
  Setup.completion_of env
  = match setup_rejection env with
    | Some e => Throw e
    | None => Normal tt
    end.
Proof. destruct env as [[e|c] [e1|] [e2|] [e3|]]; reflexivity. Qed.

(** X1.  [setupTable] releases the client it was granted exactly once, as
    its last call, whichever statement fails or none; when [pool.connect()]
    is rejected it makes no other call: no statement, no release. *)
Theorem setup_releases_its_client (env : Setup.SetupEnv) :
  match Setup.connect_res env with
  | inr c =>
      exists stmts,
        Setup.calls env
        = Setup.Connect (Some c) :: map (Setup.Run c) stmts
          ++ [Setup.Release c]
  | inl _ => Setup.calls env = [Setup.Connect None]
  end.
Proof.
  destruct env as [[e|c] [e1|] [e2|] [e3|]]; cbn; try reflexivity;
    first [ now exists [Setup.DROP_TABLE]
          | now exists [Setup.DROP_TABLE; Setup.CREATE_TABLE]
          | now exists [Setup.DROP_TABLE; Setup.CREATE_TABLE;
                        Setup.CREATE_INDEX] ].
Qed.

(** X2.  [setupTable] sends DROP TABLE, CREATE TABLE and CREATE INDEX in
    this order on the client it was granted and stops at the first one
    that is rejected; it throws the first rejection it meets (that of
    [pool.connect()] included) and completes normally only when nothing was
    rejected. *)
Theorem setup_stops_at_first_rejection (env : Setup.SetupEnv) :
  Setup.completion_of env
  = match setup_rejection env with
    | Some e => Throw e
    | None => Normal tt
    end
  /\ (forall c, Setup.connect_res env = inr c ->
        Setup.calls env
        = Setup.Connect (Some c)
          :: map (Setup.Run c) (setup_statements env)
          ++ [Setup.Release c]).
Proof.
  destruct env as [[e|c] [e1|] [e2|] [e3|]]; cbn; split;
    try reflexivity; intros c' H; inversion H; reflexivity.
Qed.

Lemma setup_stops_at_first_rejection_witness :
  Setup.calls setup_rejected_create
  = [Setup.Connect (Some 3); Setup.Run 3 Setup.DROP_TABLE;
     Setup.Run 3 Setup.CREATE_TABLE; Setup.Release 3].
Proof.
  exact (proj2 (setup_stops_at_first_rejection setup_rejected_create)
               3 eq_refl).
Defined.

(** X3.  A run starts its stages only after a setup in which nothing was
    rejected: when [pool.connect()] or one of the three statements is
    rejected, [runProgressiveTest] and [runStressTest] end in
    [process.exit(1)] whatever the stages would have done; otherwise they
    do not. *)
Theorem rejected_setup_aborts_the_run (senv : Setup.SetupEnv) :
  (setup_rejection senv <> None ->
   (forall fuel cfg envs,
       Index.runProgressiveTest fuel cfg
         (Index.mkRunEnv (Setup.setup_ok senv) envs)
       = Some Index.Aborted)
   /\ (forall cfg t0 evs t1,
          StressTest.runStressTest cfg
            (StressTest.mkRunEnv (Setup.setup_ok senv) t0 evs t1)
          = Some StressTest.Aborted))
  /\ (setup_rejection senv = None ->
      (forall fuel cfg envs,
          Index.runProgressiveTest fuel cfg
            (Index.mkRunEnv (Setup.setup_ok senv) envs)
          <> Some Index.Aborted)
      /\ (forall cfg t0 evs t1,
             StressTest.runStressTest cfg
               (StressTest.mkRunEnv (Setup.setup_ok senv) t0 evs t1)
             <> Some StressTest.Aborted)).
Proof.
  assert (Hok : Setup.setup_ok senv
                = match setup_rejection senv with
                  | Some _ => false
                  | None => true
                  end).
  { unfold Setup.setup_ok.
    rewrite setup_completion.
    now destruct (setup_rejection senv). }
  split; intros Hrej.
  - destruct (setup_rejection senv); [|contradiction].
    split; intros; [unfold Index.runProgressiveTest
                   |unfold StressTest.runStressTest]; cbn; now rewrite Hok.
  - rewrite Hrej in Hok. split; intros.
    + unfold Index.runProgressiveTest. cbn. rewrite Hok.
      destruct (Index.ramp fuel cfg envs (Index.INITIAL_CONCURRENCY cfg) []);
        discriminate.
    + unfold StressTest.runStressTest. cbn. rewrite Hok.
      destruct (all_finished _); discriminate.
Qed.

Lemma rejected_setup_aborts_the_run_witness :
  Index.runProgressiveTest 5 demo_ramp_config
    (Index.mkRunEnv (Setup.setup_ok setup_rejected_create)
                    (Index.stage_env demo_ramp_env))
  = Some Index.Aborted
  /\ Index.runProgressiveTest 5 demo_ramp_config
       (Index.mkRunEnv (Setup.setup_ok setup_fine)
                       (Index.stage_env demo_ramp_env))
     <> Some Index.Aborted.
Proof.
  split.
  - apply (proj1 (proj1 (rejected_setup_aborts_the_run setup_rejected_create)
                        ltac:(discriminate))).
  - apply (proj1 (proj2 (rejected_setup_aborts_the_run setup_fine)
                        eq_refl)).
Defined.

(** ** The statements of a unit of work *)

(** X4.  A unit of work sends nothing without a client, sends the INSERT
    once it has one and the SELECT only if the INSERT resolved, each at
    most once and on the client it was granted.  It returns the duration
    when all three awaits resolved and otherwise the first rejection.  Both
    scripts make the same calls. *)
Theorem unit_of_work_statements (env : ActionEnv) (s : StressTest.Stats) :
  let run := Index.performUserAction env (enter tt) in
  let srun := StressTest.performUserAction env (enter s) in
  pg (fst srun) = pg (fst run)
  /\ queries (pg (fst run))
     = match connect_res env with
       | inl _ => []
       | inr c =>
           match insert_res env with
           | Some _ => [(c, INSERT)]
           | None => [(c, INSERT); (c, SELECT)]
           end
       end
  /\ snd run
     = Normal (match caught env with
               | None => Index.Success (now_end env - now_start env)
               | Some e => Index.Failure e
               end).
Proof.
  destruct env as [t0 [e|c] [e1|] [e2|] t1]; cbn; repeat split.
Qed.

(** ** Errors of the connection class *)

Lemma prefix_app (sub s : string) :
  String.prefix sub s = true <-> exists post, s = (sub ++ post)%string.
Proof.
  revert s; induction sub as [|a sub IH]; intros s.
  - destruct s; cbn; (split; [intros _; eexists; reflexivity | reflexivity]).
  - destruct s as [|b s]; cbn.
    + split; [discriminate | intros [post H]; discriminate].
    + destruct (Ascii.ascii_dec a b) as [->|Hne].
      * rewrite IH. split; intros [post H]; exists post; congruence.
      * split; [discriminate | intros [post H]; congruence].
Qed.

Lemma includes_substring (sub s : string) :
  includes sub s = true
  <-> exists pre post, s = (pre ++ sub ++ post)%string.
Proof.
  induction s as [|a s IH]; cbn [includes].
  - destruct (String.prefix sub EmptyString) eqn:Hp.
    + apply prefix_app in Hp as [post Hp].
      split; [intros _; now exists EmptyString, post | reflexivity].
    + split; [discriminate|].
      intros (pre & post & H).
      destruct pre; cbn in H; [|discriminate].
      assert (String.prefix sub EmptyString = true)
        by (apply prefix_app; now exists post).
      congruence.
  - destruct (String.prefix sub (String a s)) eqn:Hp.
    + apply prefix_app in Hp as [post Hp].
      split; [intros _; now exists EmptyString, post | reflexivity].
    + rewrite IH. split.
      * intros (pre & post & ->). now exists (String a pre), post.
      * intros (pre & post & H).
        destruct pre as [|b pre]; cbn in H.
        -- assert (String.prefix sub (String a s) = true)
             by (apply prefix_app; now exists post).
           congruence.
        -- injection H as _ ->. now exists pre, post.
Qed.

(** X5.  A failed request counts as a connection error exactly when the
    error's code is 53300 or its message contains "timeout" somewhere;
    an error without a code counts only through its message. *)
Theorem connection_error_iff (error : PgError) :
  Index.isConnError error = true
  <-> code error = Some "53300"%string
      \/ exists pre post,
           message error = (pre ++ "timeout" ++ post)%string.
Proof.
  unfold Index.isConnError. rewrite orb_true_iff, includes_substring.
  destruct (code error) as [c|].
  - rewrite String.eqb_eq. split; intros [H|H]; auto; left; congruence.
  - split; intros [H|H]; auto; discriminate.
Qed.

Lemma connection_error_iff_witness :
  Index.isConnError too_many_connections = true
  /\ Index.isConnError statement_timeout = true.
Proof.
  split.
  - exact (proj2 (connection_error_iff too_many_connections)
                 (or_introl eq_refl)).
  - exact (proj2 (connection_error_iff statement_timeout)
                 (or_intror
                    (ex_intro _ "canceling statement due to statement "%string
                       (ex_intro _ ""%string eq_refl)))).
Defined.

Example connection_errors_recognised :
  Index.isConnError too_many_connections = true
  /\ Index.isConnError statement_timeout = true
  /\ Index.isConnError
       (mkPgError (Some "23505"%string) "duplicate key value"%string)
     = false.
Proof. repeat split. Qed.

(** ** More on the worker pool *)

Lemma in_flight_length ws :
  length (in_flight ws) = count_workers is_running ws.
Proof.
  unfold in_flight, count_workers.
  induction ws as [|x ws IH]; cbn; [reflexivity|].
  rewrite length_app, IH. now destruct x.
Qed.

Lemma filter_length_mono {A : Type} (p q : A -> bool) (l : list A) :
  (forall x, p x = true -> q x = true) ->
  length (filter p l) <= length (filter q l).
Proof.
  intros Hpq. induction l as [|x l IH]; cbn; [lia|].
  destruct (p x) eqn:Hp.
  - rewrite (Hpq _ Hp). cbn. lia.
  - destruct (q x); cbn; lia.
Qed.

Lemma conn_failure_failed env :
  conn_failure env = true -> negb (answers_ok env) = true.
Proof.
  unfold conn_failure. destruct (caught env) as [e|] eqn:Hc; [|discriminate].
  intros _. destruct (answers_ok env) eqn:Hok; [|reflexivity].
  apply answers_ok_caught in Hok. congruence.
Qed.

Lemma ready_counted ws w :
  nth_error ws w = Some Ready -> 0 < count_workers is_ready ws.
Proof.
  intros Hw.
  pose proof (count_set_worker is_ready w Finished _ _ Hw) as H.
  cbn [is_ready] in H. lia.
Qed.

Lemma finished_nth ws w x :
  forallb is_finished ws = true -> nth_error ws w = Some x -> x = Finished.
Proof.
  revert w; induction ws as [|y ws IH]; intros [|w] Hall Hw; cbn in *;
    try discriminate; apply andb_prop in Hall as [Hy Hall].
  - injection Hw as <-. now destruct y.
  - eauto.
Qed.

(** Nothing happens in a pool whose workers have all returned. *)
Lemma finished_pool_is_still {St : Type} (settle : ActionEnv -> St -> St)
      (r : nat) (evs : list PoolEvent) : forall st : PoolState St,
  all_finished st = true -> exec settle r evs st = st.
Proof.
  induction evs as [|ev evs IH]; intros st Hall; cbn [exec fold_left];
    [reflexivity|].
  assert (Hstep : step settle r st ev = st).
  { destruct ev as [w|w env]; cbn;
      destruct (nth_error (workers st) w) as [x|] eqn:Hw; auto;
      rewrite (finished_nth _ _ _ Hall Hw); reflexivity. }
  rewrite Hstep. now apply IH.
Qed.

(** Under [index.js] no worker is ever left idle between two events. *)
Lemma resume_keeps_none_ready (r : nat) (c : nat * ActionEnv) :
  forall st : PoolState Index.Stats,
    none_ready st -> none_ready (exec Index.settle r (Index.resume c) st).
Proof.
  intros st Hready. destruct c as [w env]. unfold Index.resume. cbn [fst snd].
  destruct (nth_error (workers st) w) as [[|i|]|] eqn:Hw.
  - apply ready_counted in Hw. unfold none_ready in Hready. lia.
  - now apply (resume_none_ready Index.settle r st w i env).
  - cbn. rewrite Hw. cbn. now rewrite Hw.
  - cbn. rewrite Hw. cbn. now rewrite Hw.
Qed.

Lemma index_run_none_ready c r env :
  none_ready (Index.run_workers c r env).
Proof.
  unfold Index.run_workers, Index.schedule, exec.
  rewrite fold_left_app.
  pose proof (spawn_none_ready Index.settle r c Index.stats0) as Hspawn.
  unfold exec in Hspawn.
  generalize dependent (fold_left (step Index.settle r) (spawn c)
                                  (init_pool c Index.stats0)).
  induction (Index.completions env) as [|x l IH]; intros st Hst;
    cbn [flat_map]; [exact Hst|].
  rewrite fold_left_app. apply IH.
  exact (resume_keeps_none_ready r x st Hst).
Qed.

(** X6.  At every point of a stage the outcomes recorded so far never
    exceed the requests: [completed + errors <= requestCount], and together
    with the requests in flight they account for every index handed out
    below [requestCount]; the connection errors are among the errors.  Both
    scripts. *)
Theorem running_totals_bounded (c r : nat) (env : Index.StageEnv)
        (cfg : StressTest.Config) (senv : StressTest.RunEnv) :
  (let st := Index.run_workers c r env in
   Index.completed (stats st) + Index.errors (stats st) <= r
   /\ Index.connErrors (stats st) <= Index.errors (stats st)
   /\ Index.completed (stats st) + Index.errors (stats st)
      + length (in_flight (workers st))
      = Nat.min (tasksStarted st) r)
  /\
  (let st := StressTest.run_workers cfg senv in
   StressTest.completed (stats st) + StressTest.errors (stats st)
   <= StressTest.NUM_USERS cfg
   /\ StressTest.completed (stats st) + StressTest.errors (stats st)
      + length (in_flight (workers st))
      = Nat.min (tasksStarted st) (StressTest.NUM_USERS cfg)).
Proof.
  split; cbn zeta.
  - pose proof (index_tally c r env) as Ht. cbn zeta in Ht.
    destruct (index_run_inv c r env) as [_ Hfly _ _ _ Hstats _ _].
    rewrite in_flight_length. split; [lia|]. split; [|lia].
    rewrite Hstats.
    destruct (index_stats_of_log (answers (Index.run_workers c r env)))
      as (_ & _ & -> & _ & ->).
    apply filter_length_mono, conn_failure_failed.
  - pose proof (stress_tally cfg senv) as Ht. cbn zeta in Ht.
    destruct (stress_run_inv cfg senv) as [_ Hfly _ _ _ _ _ _].
    rewrite in_flight_length. split; lia.
Qed.

(** X7.  Under any schedule no task index is worked on twice: the indices
    already settled and those in flight are pairwise distinct, they are
    exactly the indices handed out below [requestCount], and at most
    [min concurrency requestCount] requests are in flight at a time. *)
Theorem each_index_handled_once {St : Type}
        (settle : ActionEnv -> St -> St) (s0 : St) (c r : nat)
        (evs : list PoolEvent) :
  let st := exec settle r evs (init_pool c s0) in
  NoDup (map fst (settled st) ++ in_flight (workers st))
  /\ (forall i, In i (map fst (settled st) ++ in_flight (workers st))
                <-> i < Nat.min (tasksStarted st) r)
  /\ length (in_flight (workers st)) <= Nat.min c r.
Proof.
  cbn zeta.
  destruct (reachable_inv settle r c s0 evs)
    as [Hlen Hfly _ _ Honce _ _ _].
  split; [|split].
  - apply (Permutation_NoDup (Permutation_sym Honce)), seq_NoDup.
  - intros i. split; intros H.
    + apply (Permutation_in _ Honce) in H. apply in_seq in H. lia.
    + apply (Permutation_in _ (Permutation_sym Honce)), in_seq. lia.
  - rewrite in_flight_length.
    pose proof (count_workers_le is_running
                  (workers (exec settle r evs (init_pool c s0)))). lia.
Qed.

Lemma each_index_handled_once_witness :
  In 2 (map fst (settled (Index.run_workers 2 3 demo_stage))
        ++ in_flight (workers (Index.run_workers 2 3 demo_stage))).
Proof.
  refine (proj2 (proj1 (proj2
            (each_index_handled_once Index.settle Index.stats0 2 3
               (Index.schedule 2 demo_stage))) 2) _).
  vm_compute. lia.
Defined.

(** X8.  A stage of [index.js] with at least one worker returns its result
    exactly when all [requestCount] requests have settled: no result is
    computed from a stage in which a request is still pending, and none is
    withheld once the last one has settled. *)
Theorem stage_returns_iff_all_settled (c r : nat) (env : Index.StageEnv) :
  1 <= c ->
  (Index.runStage c r env <> None
   <-> length (settled (Index.run_workers c r env)) = r).
Proof.
  intros Hc. unfold Index.runStage.
  pose proof (index_run_inv c r env) as Hinv.
  pose proof (index_run_none_ready c r env) as Hready.
  destruct (all_finished (Index.run_workers c r env)) eqn:Hall.
  - split; [intros _|discriminate].
    now destruct (drained _ _ _ _ _ Hinv Hc Hall).
  - split; [intros H; now contradiction H|].
    intros Hset. exfalso.
    destruct (busy_or_finished _ Hready Hall) as (w & i & Hw).
    destruct Hinv as [_ Hfly _ _ _ _ _ _].
    pose proof (count_set_worker is_running w Ready _ _ Hw) as H.
    cbn [is_running] in H. lia.
Qed.

Lemma stage_returns_iff_all_settled_witness :
  Index.runStage 2 3 demo_stage <> None
  <-> length (settled (Index.run_workers 2 3 demo_stage)) = 3.
Proof.
  exact (stage_returns_iff_all_settled 2 3 demo_stage (le_S 1 1 (le_n 1))).
Defined.

(** X9.  The shared counter is read at most [requestCount + concurrency]
    times: once per request handed out and once more by each worker, the
    read that makes it return.  When the last worker has returned it stands
    at exactly that value. *)
Theorem counter_reads_bounded {St : Type}
        (settle : ActionEnv -> St -> St) (s0 : St) (c r : nat)
        (evs : list PoolEvent) :
  let st := exec settle r evs (init_pool c s0) in
  tasksStarted st <= r + c
  /\ length (issued st) = tasksStarted st
  /\ (1 <= c -> all_finished st = true -> tasksStarted st = r + c).
Proof.
  cbn zeta.
  destruct (reachable_inv settle r c s0 evs)
    as [Hlen _ Hfin Hiss _ _ _ _].
  set (st := exec settle r evs (init_pool c s0)) in *.
  pose proof (count_workers_le is_finished (workers st)) as Hle.
  split; [lia|]. split.
  - rewrite <- (length_map snd), Hiss. apply indices_read_length.
  - intros Hc Hall. apply all_finished_count in Hall. lia.
Qed.

Lemma counter_reads_bounded_witness :
  tasksStarted (Index.run_workers 2 3 demo_stage) = 3 + 2.
Proof.
  exact (proj2 (proj2 (counter_reads_bounded Index.settle Index.stats0 2 3
                         (Index.schedule 2 demo_stage)))
               (le_S 1 1 (le_n 1)) eq_refl).
Defined.

(** X10.  A stage cannot get stuck and cannot go on for ever: as long as a
    worker has not returned, some worker can read the counter or some
    request in flight can settle, and whatever the order of events at most
    [2 * (requestCount + concurrency)] of them happen. *)
Theorem stage_neither_stuck_nor_endless {St : Type}
        (settle : ActionEnv -> St -> St) (s0 : St) (c r : nat)
        (evs : list PoolEvent) (answer : ActionEnv) :
  let st := exec settle r evs (init_pool c s0) in
  effective settle r evs (init_pool c s0) <= 2 * (r + c)
  /\ (all_finished st = false -> exists ev, enabled st ev = true)
  /\ exists more, all_finished (exec settle r more st) = true.
Proof.
  cbn zeta. split; [apply effective_at_most|]. split.
  - now apply unfinished_enabled.
  - apply (can_drain_from_anywhere settle r c s0 answer), reachable_inv.
Qed.

Lemma stage_neither_stuck_nor_endless_witness :
  exists ev,
    enabled (exec Index.settle 3 (spawn 2) (init_pool 2 Index.stats0)) ev
    = true.
Proof.
  exact (proj1 (proj2 (stage_neither_stuck_nor_endless
                         Index.settle Index.stats0 2 3 (spawn 2) env_ok))
               eq_refl).
Defined.

Lemma set_worker_at_end ws x y rest :
  set_worker (length ws) x (ws ++ y :: rest) = (ws ++ [x]) ++ rest.
Proof.
  induction ws as [|z ws IH]; cbn; [reflexivity|]. now rewrite IH.
Qed.

Lemma spawn_state_aux {St : Type} (settle : ActionEnv -> St -> St)
      (r : nat) (s : St) (stl : list (nat * ActionEnv)) :
  forall n ws iss,
    exec settle r (map Poll (seq (length ws) n))
         (mkPool (length ws) (ws ++ repeat Ready n) s iss stl)
    = mkPool (length ws + n)
             (ws ++ map (fun i => if r <=? i then Finished else Running i)
                        (seq (length ws) n))
             s
             (rev (map (fun i => (i, i)) (seq (length ws) n)) ++ iss)
             stl.
Proof.
  induction n as [|n IH]; intros ws iss.
  - cbn. now rewrite Nat.add_0_r.
  - change (repeat Ready (S n)) with (Ready :: repeat Ready n).
    cbn [seq map exec fold_left step]. cbn [workers].
    rewrite nth_error_app2 by lia. rewrite Nat.sub_diag. cbn [nth_error].
    unfold poll. cbn [tasksStarted workers stats issued settled].
    set (x := if r <=? length ws then Finished else Running (length ws)).
    rewrite set_worker_at_end.
    assert (Hlen : length (ws ++ [x]) = S (length ws))
      by (rewrite length_app; cbn; lia).
    rewrite <- Hlen. unfold exec in IH. rewrite IH, Hlen.
    f_equal; [lia | now rewrite <- app_assoc |].
    cbn [rev]. now rewrite <- app_assoc.
Qed.

Lemma in_flight_started r a n :
  in_flight (map (fun i => if r <=? i then Finished else Running i)
                 (seq a n))
  = filter (fun i => i <? r) (seq a n).
Proof.
  unfold in_flight. revert a; induction n as [|n IH]; intros a;
    cbn [seq map flat_map filter]; [reflexivity|].
  rewrite IH.
  destruct (Nat.leb_spec r a), (Nat.ltb_spec a r); cbn [running_index app];
    try reflexivity; exfalso; lia.
Qed.

Lemma spawn_state {St : Type} (settle : ActionEnv -> St -> St)
      (s0 : St) (c r : nat) :
  exec settle r (spawn c) (init_pool c s0)
  = mkPool c
           (map (fun i => if r <=? i then Finished else Running i) (seq 0 c))
           s0 (rev (map (fun i => (i, i)) (seq 0 c)) ++ []) [].
Proof.
  unfold spawn, init_pool.
  pose proof (spawn_state_aux settle r s0 [] c [] []) as H.
  cbn [length app Nat.add] in H. exact H.
Qed.

(** X11.  When the [for] loop has started the workers, worker [i] holds
    request [i] if there is one and has already returned otherwise: with
    more workers than requests the surplus workers do no work.  The counter
    stands at [concurrency] and nothing has been recorded yet. *)
Theorem workers_after_start {St : Type}
        (settle : ActionEnv -> St -> St) (s0 : St) (c r : nat) :
  let st := exec settle r (spawn c) (init_pool c s0) in
  workers st
  = map (fun i => if r <=? i then Finished else Running i) (seq 0 c)
  /\ in_flight (workers st) = filter (fun i => i <? r) (seq 0 c)
  /\ tasksStarted st = c
  /\ stats st = s0
  /\ settled st = [].
Proof.
  cbn zeta. rewrite spawn_state.
  cbn [workers tasksStarted stats settled].
  repeat split. apply in_flight_started.
Qed.

(** ** Stages without errors and stages without requests *)

(** An error rate that is zero divided by anything is not above the
    threshold. *)
Lemma zero_rate_not_above (x : float) :
  (Index.MAX_ERROR_RATE <? num_of_nat 0 / x)%float = false.
Proof.
  rewrite ltb_spec, div_spec.
  remember (Prim2SF Index.MAX_ERROR_RATE) as limit eqn:Hlimit.
  vm_compute in Hlimit. subst limit.
  change (Prim2SF (num_of_nat 0)) with (S754_zero false).
  unfold SF64div, SFdiv.
  destruct (Prim2SF x) as [s|s| |s m e]; reflexivity.
Qed.

Lemma filter_none {A : Type} (p : A -> bool) (l : list A) :
  forallb p l = true -> filter (fun x => negb (p x)) l = [].
Proof.
  induction l as [|x l IH]; cbn; [reflexivity|].
  destruct (p x); cbn; [exact IH | discriminate].
Qed.

(** X12.  A completed stage in which every request succeeded has counted
    no error and no connection error, has one latency sample per request,
    and is never critical, whatever [requestCount] is. *)
Theorem all_success_is_not_critical (c r : nat) (env : Index.StageEnv)
        (res : Index.StageResult) :
  Index.runStage c r env = Some res ->
  forallb answers_ok (answers (Index.run_workers c r env)) = true ->
  let s := stats (Index.run_workers c r env) in
  Index.errors s = 0
  /\ Index.connErrors s = 0
  /\ length (Index.latencies s)
     = length (settled (Index.run_workers c r env))
  /\ Index.hasCriticalFailure res = false.
Proof.
  intros Hrun Hok. cbn zeta. apply runStage_result in Hrun as [_ ->].
  destruct (index_run_inv c r env) as [_ _ _ _ _ Hstats _ _].
  destruct (index_stats_of_log (answers (Index.run_workers c r env)))
    as (Hlat & Hcomp & Herr & _ & Hconn).
  cbn zeta in *. rewrite <- Hstats in *.
  pose proof (filter_length_mono conn_failure
                (fun e => negb (answers_ok e))
                (rev (answers (Index.run_workers c r env)))
                conn_failure_failed) as Hle.
  pose proof (filter_split_length answers_ok
                (rev (answers (Index.run_workers c r env)))) as Hsplit.
  rewrite filter_rev, (filter_none _ _ Hok) in Herr. cbn in Herr.
  rewrite !filter_rev, (filter_none _ _ Hok) in Hle, Hsplit.
  cbn in Hle, Hsplit.
  rewrite Nat.add_0_r, <- filter_rev in Hsplit.
  rewrite length_rev in Hsplit. unfold answers in Hsplit at 2.
  rewrite length_map in Hsplit.
  rewrite <- filter_rev in Hle.
  assert (Hc : Index.connErrors (stats (Index.run_workers c r env)) = 0)
    by lia.
  split; [exact Herr|]. split; [exact Hc|]. split.
  - rewrite Hlat. unfold durations. rewrite length_map. lia.
  - unfold Index.stage_result. cbn [Index.hasCriticalFailure].
    rewrite Hc, Herr. cbn [Nat.ltb Nat.leb orb]. apply zero_rate_not_above.
Qed.

Lemma all_success_is_not_critical_witness :
  Index.hasCriticalFailure
    (Index.stage_result 2 3 1000 1090
                        (stats (Index.run_workers 2 3 smooth_stage)))
  = false.
Proof.
  exact (proj2 (proj2 (proj2
           (all_success_is_not_critical 2 3 smooth_stage
              (Index.stage_result 2 3 1000 1090
                 (stats (Index.run_workers 2 3 smooth_stage)))
              eq_refl eq_refl)))).
Defined.

Lemma empty_stage_run (c : nat) (env : Index.StageEnv) :
  all_finished (Index.run_workers c 0 env) = true
  /\ stats (Index.run_workers c 0 env) = Index.stats0
  /\ tasksStarted (Index.run_workers c 0 env) = c.
Proof.
  assert (Hall : all_finished
                   (exec Index.settle 0 (spawn c) (init_pool c Index.stats0))
                 = true).
  { rewrite spawn_state. unfold all_finished. cbn [workers].
    induction (seq 0 c) as [|i l IH]; cbn; auto. }
  assert (Hrun : Index.run_workers c 0 env
                 = exec Index.settle 0 (spawn c) (init_pool c Index.stats0)).
  { unfold Index.run_workers, Index.schedule, exec. rewrite fold_left_app.
    now apply finished_pool_is_still. }
  rewrite Hrun. split; [exact Hall|]. now rewrite spawn_state.
Qed.

(** X13.  A stage with no request returns at once, whatever the
    concurrency and whatever is answered: every worker leaves on its first
    read of the counter, nothing is recorded, the average latency is 0, the
    error rate is 0/0, that is NaN, and the stage is not critical. *)
Theorem stage_without_requests (c : nat) (env : Index.StageEnv) :
  exists res,
    Index.runStage c 0 env = Some res
    /\ stats (Index.run_workers c 0 env) = Index.stats0
    /\ tasksStarted (Index.run_workers c 0 env) = c
    /\ Index.avgLatency res = 0%float
    /\ Index.errorRate res = nan
    /\ Index.hasCriticalFailure res = false.
Proof.
  destruct (empty_stage_run c env) as (Hall & Hst & Hts).
  eexists. unfold Index.runStage. rewrite Hall, Hst, Hts.
  repeat split.
Qed.

(** ** More on the ramp-up *)

Lemma stage_count_levels cfg :
  1 <= Index.CONCURRENCY_STEP cfg ->
  (forall k, k < stage_count cfg ->
     Index.INITIAL_CONCURRENCY cfg + k * Index.CONCURRENCY_STEP cfg
     <= Index.MAX_CONCURRENCY cfg)
  /\ Index.MAX_CONCURRENCY cfg
     < Index.INITIAL_CONCURRENCY cfg
       + stage_count cfg * Index.CONCURRENCY_STEP cfg.
Proof.
  intros Hstep. unfold stage_count.
  set (a := Index.INITIAL_CONCURRENCY cfg).
  set (m := Index.MAX_CONCURRENCY cfg).
  set (d := Index.CONCURRENCY_STEP cfg) in *.
  destruct (Nat.leb_spec a m) as [Hle|Hgt].
  - pose proof (Nat.Div0.mul_div_le (m - a) d) as Hlow.
    pose proof (Nat.mul_succ_div_gt (m - a) d ltac:(lia)) as Hhigh.
    split.
    + intros k Hk.
      assert (k * d <= (m - a) / d * d) by (apply Nat.mul_le_mono_r; lia).
      lia.
    + lia.
  - split; [intros k Hk; lia | lia].
Qed.

(** A loop that meets [n] stages without a critical failure and then the
    ceiling appends their results and leaves through its condition. *)
Lemma ramp_runs_through cfg envs (res : nat -> Index.StageResult) :
  forall n fuel cur rep,
    n < fuel ->
    (forall j, j < n ->
       cur + j * Index.CONCURRENCY_STEP cfg <= Index.MAX_CONCURRENCY cfg
       /\ Index.runStage (cur + j * Index.CONCURRENCY_STEP cfg)
                         (Index.STAGE_REQUESTS cfg)
                         (envs (length rep + j))
          = Some (res (length rep + j))
       /\ Index.hasCriticalFailure (res (length rep + j)) = false) ->
    Index.MAX_CONCURRENCY cfg < cur + n * Index.CONCURRENCY_STEP cfg ->
    Index.ramp fuel cfg envs cur rep
    = Some (Index.mkRunReport (rep ++ map res (seq (length rep) n))
                              Index.StoppedAtCeiling).
Proof.
  induction n as [|n IH]; intros fuel cur rep Hfuel Hstages Hceil;
    (destruct fuel as [|fuel]; [lia|]); rewrite ramp_unfold.
  - destruct (Nat.leb_spec cur (Index.MAX_CONCURRENCY cfg)); [lia|].
    cbn. now rewrite app_nil_r.
  - destruct (Hstages 0 ltac:(lia)) as (Hle & Hrun & Hcrit).
    rewrite Nat.add_0_r in *. cbn [Nat.mul] in Hle, Hrun.
    rewrite Nat.add_0_r in *.
    destruct (Nat.leb_spec cur (Index.MAX_CONCURRENCY cfg)); [|lia].
    rewrite Hrun, Hcrit.
    rewrite (IH fuel (cur + Index.CONCURRENCY_STEP cfg)
                (rep ++ [res (length rep)])).
    + rewrite length_app. cbn [length seq map].
      rewrite <- app_assoc, Nat.add_1_r. reflexivity.
    + lia.
    + intros j Hj. rewrite length_app. cbn [length].
      destruct (Hstages (S j) ltac:(lia)) as (Hle' & Hrun' & Hcrit').
      replace (length rep + 1 + j) with (length rep + S j) by lia.
      replace (cur + Index.CONCURRENCY_STEP cfg
               + j * Index.CONCURRENCY_STEP cfg)
        with (cur + S j * Index.CONCURRENCY_STEP cfg) by lia.
      now repeat split.
    + lia.
Qed.

(** X14.  When no stage is critical, a progressive run with a positive
    step executes one stage at every level from the initial concurrency to
    the ceiling, [(MAX - INITIAL) / STEP + 1] of them in ascending order
    (none when the initial concurrency is above the ceiling), reports
    their results in that order and leaves the loop through its condition. *)
Theorem no_failure_runs_every_level (fuel : nat) (cfg : Index.Config)
        (env : Index.RunEnv) (res : nat -> Index.StageResult) :
  1 <= Index.CONCURRENCY_STEP cfg ->
  Index.setup_ok env = true ->
  stage_count cfg < fuel ->
  (forall k, k < stage_count cfg ->
     Index.runStage
       (Index.INITIAL_CONCURRENCY cfg + k * Index.CONCURRENCY_STEP cfg)
       (Index.STAGE_REQUESTS cfg) (Index.stage_env env k)
     = Some (res k)
     /\ Index.hasCriticalFailure (res k) = false) ->
  Index.runProgressiveTest fuel cfg env
  = Some (Index.Ended
            (Index.mkRunReport (map res (seq 0 (stage_count cfg)))
                               Index.StoppedAtCeiling))
  /\ map Index.concurrency (map res (seq 0 (stage_count cfg)))
     = map (fun k => Index.INITIAL_CONCURRENCY cfg
                     + k * Index.CONCURRENCY_STEP cfg)
           (seq 0 (stage_count cfg)).
Proof.
  intros Hstep Hsetup Hfuel Hstages.
  destruct (stage_count_levels cfg Hstep) as [Hlevels Hceil].
  split.
  - unfold Index.runProgressiveTest. rewrite Hsetup.
    rewrite (ramp_runs_through cfg (Index.stage_env env) res
               (stage_count cfg) fuel _ [] Hfuel); [reflexivity| |exact Hceil].
    intros j Hj. cbn [length Nat.add].
    destruct (Hstages j Hj). now repeat split; [apply Hlevels|..].
  - rewrite map_map. apply map_ext_in. intros k Hk. apply in_seq in Hk.
    destruct (Hstages k ltac:(lia)) as [Hrun _].
    now apply runStage_concurrency in Hrun.
Qed.

Lemma no_failure_runs_every_level_witness :
  Index.runProgressiveTest 4 (Index.mkConfig 1 10 10 30) calm_ramp_env
  = Some (Index.Ended
            (Index.mkRunReport [calm_result 0; calm_result 1; calm_result 2]
                               Index.StoppedAtCeiling)).
Proof.
  refine (proj1 (no_failure_runs_every_level 4 (Index.mkConfig 1 10 10 30)
                   calm_ramp_env calm_result _ eq_refl _ _)).
  - cbn. lia.
  - vm_compute. lia.
  - intros [|[|[|k]]] Hk; [split; reflexivity ..|].
    exfalso. vm_compute in Hk. lia.
Defined.

(** X15.  When a run stops on a critical stage that is not the first one,
    the stable limit it reports is the concurrency of the stage before it
    in the report, and that stage was not critical: the limit is a level
    that was run and passed.  When the very first stage is critical the
    limit is the initial concurrency minus the step, a level that was never
    run. *)
Theorem stable_limit_is_last_passed_level (fuel : nat) (cfg : Index.Config)
        (env : Index.RunEnv) (out : Index.RunReport)
        (last : Index.StageResult) :
  Index.runProgressiveTest fuel cfg env = Some (Index.Ended out) ->
  Index.hasCriticalFailure last = true ->
  (forall pre prev,
      Index.report out = pre ++ [prev; last] ->
      Index.terminal out
      = Index.StoppedOnFailure (Z.of_nat (Index.concurrency prev))
      /\ Index.hasCriticalFailure prev = false)
  /\ (Index.report out = [last] ->
      Index.terminal out
      = Index.StoppedOnFailure
          (Z.of_nat (Index.INITIAL_CONCURRENCY cfg)
           - Z.of_nat (Index.CONCURRENCY_STEP cfg))).
Proof.
  unfold Index.runProgressiveTest. intros Hrun Hcrit.
  destruct (Index.setup_ok env); [|discriminate].
  destruct (Index.ramp fuel cfg (Index.stage_env env)
                       (Index.INITIAL_CONCURRENCY cfg) []) as [out'|] eqn:Hramp;
    [|discriminate].
  cbn in Hrun. injection Hrun as ->.
  destruct (ramp_spec _ _ _ _ _ _ Hramp) as (news & Hnews & Hstages & Hterm).
  cbn in Hnews. subst news.
  assert (Hfail : forall before,
             Index.report out = before ++ [last] ->
             exists limit,
               Index.terminal out = Index.StoppedOnFailure limit
               /\ limit
                  = (Z.of_nat (Index.INITIAL_CONCURRENCY cfg
                               + length before * Index.CONCURRENCY_STEP cfg)
                     - Z.of_nat (Index.CONCURRENCY_STEP cfg))%Z
               /\ forallb (fun r => negb (Index.hasCriticalFailure r)) before
                  = true).
  { intros before Hrep. destruct (Index.terminal out) as [limit|].
    - destruct Hterm as (pre' & last' & Heq & Hpre & _ & ->).
      rewrite Hrep in Heq.
      destruct (critical_is_last Index.hasCriticalFailure _ _ _ _ _
                                 Heq Hpre Hcrit) as (_ & -> & _).
      eexists. now repeat split.
    - destruct Hterm as [Hall _]. rewrite forallb_forall in Hall.
      specialize (Hall last). rewrite Hcrit in Hall.
      discriminate Hall. rewrite Hrep. apply in_or_app. right. now left. }
  split.
  - intros pre prev Hrep.
    destruct (Hfail (pre ++ [prev])) as (limit & -> & -> & Hpass).
    { rewrite Hrep, <- app_assoc. reflexivity. }
    destruct (Hstages (length pre) prev) as [Hstage _].
    { rewrite Hrep, nth_error_app2 by lia. now rewrite Nat.sub_diag. }
    apply runStage_concurrency in Hstage. cbn [length Nat.add] in Hstage.
    rewrite forallb_app in Hpass. apply andb_prop in Hpass as [_ Hprev].
    cbn in Hprev. rewrite andb_true_r in Hprev.
    apply negb_true_iff in Hprev.
    split; [|exact Hprev].
    f_equal. rewrite Hstage, length_app. cbn [length]. lia.
  - intros Hrep. destruct (Hfail []) as (limit & -> & -> & _);
      [exact Hrep|].
    f_equal. cbn [length]. lia.
Qed.

Lemma stable_limit_is_last_passed_level_witness :
  Index.terminal (Index.mkRunReport demo_ramp_report
                                    (Index.StoppedOnFailure 20))
  = Index.StoppedOnFailure
      (Z.of_nat (Index.concurrency
                   (Index.stage_result 20 1 1000 1040
                      (Index.settle env_ok Index.stats0))))
  /\ Index.hasCriticalFailure
       (Index.stage_result 20 1 1000 1040 (Index.settle env_ok Index.stats0))
     = false.
Proof.
  exact (proj1
           (stable_limit_is_last_passed_level 5 demo_ramp_config demo_ramp_env
              (Index.mkRunReport demo_ramp_report (Index.StoppedOnFailure 20))
              (Index.stage_result 30 1 1000 1040
                 (Index.settle env_timeout Index.stats0))
              eq_refl eq_refl)
           (firstn 1 demo_ramp_report)
           (Index.stage_result 20 1 1000 1040
              (Index.settle env_ok Index.stats0))
           eq_refl).
Defined.

(** X16.  With a step of 0 the loop never ends unless a stage is
    critical: as long as the stage at the initial concurrency keeps
    finishing without a critical failure, the same stage is run again and
    again and no report is ever produced. *)
Theorem zero_step_never_ends (cfg : Index.Config) (env : Index.RunEnv) :
  Index.CONCURRENCY_STEP cfg = 0 ->
  Index.INITIAL_CONCURRENCY cfg <= Index.MAX_CONCURRENCY cfg ->
  Index.setup_ok env = true ->
  (forall n, exists res,
      Index.runStage (Index.INITIAL_CONCURRENCY cfg)
                     (Index.STAGE_REQUESTS cfg) (Index.stage_env env n)
      = Some res
      /\ Index.hasCriticalFailure res = false) ->
  forall fuel, Index.runProgressiveTest fuel cfg env = None.
Proof.
  intros Hstep Hle Hsetup Hstages fuel.
  unfold Index.runProgressiveTest. rewrite Hsetup.
  assert (H : forall rep,
             Index.ramp fuel cfg (Index.stage_env env)
                        (Index.INITIAL_CONCURRENCY cfg) rep = None).
  { induction fuel as [|fuel IH]; intros rep; [reflexivity|].
    rewrite ramp_unfold.
    destruct (Nat.leb_spec (Index.INITIAL_CONCURRENCY cfg)
                           (Index.MAX_CONCURRENCY cfg)); [|lia].
    destruct (Hstages (length rep)) as (res & -> & ->).
    rewrite Hstep, Nat.add_0_r. apply IH. }
  now rewrite H.
Qed.

Lemma zero_step_never_ends_witness :
  Index.runProgressiveTest 8 stalled_config calm_ramp_env = None.
Proof.
  refine (zero_step_never_ends stalled_config calm_ramp_env
            eq_refl _ eq_refl _ 8).
  - cbn. lia.
  - intros n.
    exists (Index.stage_result 10 1 1000 1040
                               (Index.settle env_ok Index.stats0)).
    split; reflexivity.
Defined.

Lemma ramp_fuel_stable fuel cfg envs cur rep out :
  Index.ramp fuel cfg envs cur rep = Some out ->
  forall fuel', fuel <= fuel' ->
                Index.ramp fuel' cfg envs cur rep = Some out.
Proof.
  intros Hrun fuel' Hle. induction Hle as [|fuel' Hle IH]; [exact Hrun|].
  now apply ramp_more_fuel.
Qed.

(** With a positive step, a loop whose stages up to the ceiling all finish
    ends. *)
Lemma ramp_ends_at_levels cfg envs :
  1 <= Index.CONCURRENCY_STEP cfg ->
  forall cur rep,
    (forall j,
        cur + j * Index.CONCURRENCY_STEP cfg <= Index.MAX_CONCURRENCY cfg ->
        Index.runStage (cur + j * Index.CONCURRENCY_STEP cfg)
                       (Index.STAGE_REQUESTS cfg) (envs (length rep + j))
        <> None) ->
    exists fuel, Index.ramp fuel cfg envs cur rep <> None.
Proof.
  intros Hstep cur.
  remember (S (Index.MAX_CONCURRENCY cfg) - cur) as gap eqn:Hgap.
  revert cur Hgap.
  induction gap as [gap IH] using lt_wf_ind; intros cur Hgap rep Hstages.
  destruct (Nat.leb_spec cur (Index.MAX_CONCURRENCY cfg)) as [Hle|Hgt].
  - pose proof (Hstages 0) as H0. cbn [Nat.mul] in H0.
    rewrite !Nat.add_0_r in H0. specialize (H0 Hle).
    destruct (Index.runStage cur (Index.STAGE_REQUESTS cfg)
                             (envs (length rep))) as [result|] eqn:Hstage;
      [|contradiction].
    destruct (Index.hasCriticalFailure result) eqn:Hcrit.
    + exists 1. rewrite ramp_unfold.
      destruct (Nat.leb_spec cur (Index.MAX_CONCURRENCY cfg)); [|lia].
      rewrite Hstage, Hcrit. discriminate.
    + destruct (IH (S (Index.MAX_CONCURRENCY cfg)
                    - (cur + Index.CONCURRENCY_STEP cfg)))
        with (cur := cur + Index.CONCURRENCY_STEP cfg)
             (rep := rep ++ [result]) as [fuel Hfuel];
        [lia | reflexivity | |].
      * intros j Hj. rewrite length_app. cbn [length].
        replace (length rep + 1 + j) with (length rep + S j) by lia.
        replace (cur + Index.CONCURRENCY_STEP cfg
                 + j * Index.CONCURRENCY_STEP cfg)
          with (cur + S j * Index.CONCURRENCY_STEP cfg) in * by lia.
        now apply Hstages.
      * exists (S fuel). rewrite ramp_unfold.
        destruct (Nat.leb_spec cur (Index.MAX_CONCURRENCY cfg)); [|lia].
        now rewrite Hstage, Hcrit.
  - exists 1. rewrite ramp_unfold.
    destruct (Nat.leb_spec cur (Index.MAX_CONCURRENCY cfg)); [lia|].
    discriminate.
Qed.

(** X17.  With a step of at least 1, a run whose setup went through and
    whose stages all finish ends, with one definite report, and that report
    never lists more stages than there are levels between the initial
    concurrency and the ceiling. *)
Theorem progressive_run_ends (cfg : Index.Config) (env : Index.RunEnv) :
  1 <= Index.CONCURRENCY_STEP cfg ->
  Index.setup_ok env = true ->
  (forall k, k < stage_count cfg ->
      Index.runStage
        (Index.INITIAL_CONCURRENCY cfg + k * Index.CONCURRENCY_STEP cfg)
        (Index.STAGE_REQUESTS cfg) (Index.stage_env env k)
      <> None) ->
  exists fuel out,
    (forall fuel', fuel <= fuel' ->
       Index.runProgressiveTest fuel' cfg env = Some (Index.Ended out))
    /\ length (Index.report out) <= stage_count cfg.
Proof.
  intros Hstep Hsetup Hstages.
  destruct (stage_count_levels cfg Hstep) as [_ Hceil].
  destruct (ramp_ends_at_levels cfg (Index.stage_env env) Hstep
              (Index.INITIAL_CONCURRENCY cfg) []) as [fuel Hfuel].
  { intros j Hj. cbn [length Nat.add]. apply Hstages.
    destruct (Nat.le_gt_cases (stage_count cfg) j) as [Hge|Hlt];
      [|exact Hlt].
    assert (stage_count cfg * Index.CONCURRENCY_STEP cfg
            <= j * Index.CONCURRENCY_STEP cfg)
      by (apply Nat.mul_le_mono_r; lia).
    lia. }
  destruct (Index.ramp fuel cfg (Index.stage_env env)
                       (Index.INITIAL_CONCURRENCY cfg) []) as [out|] eqn:Hramp;
    [|contradiction].
  exists fuel, out. split.
  - intros fuel' Hle. unfold Index.runProgressiveTest. rewrite Hsetup.
    now rewrite (ramp_fuel_stable _ _ _ _ _ _ Hramp fuel' Hle).
  - destruct (ramp_spec _ _ _ _ _ _ Hramp) as (news & Hnews & Hlevels & _).
    cbn in Hnews. rewrite Hnews.
    destruct (Nat.le_gt_cases (length news) (stage_count cfg)) as [H|H];
      [exact H|].
    destruct (nth_error news (stage_count cfg)) as [res|] eqn:Hres.
    + destruct (Hlevels _ _ Hres) as [_ Hmax]. lia.
    + apply nth_error_None in Hres. lia.
Qed.

Lemma progressive_run_ends_witness :
  exists fuel out,
    (forall fuel', fuel <= fuel' ->
       Index.runProgressiveTest fuel' (Index.mkConfig 1 10 10 30)
                                calm_ramp_env
       = Some (Index.Ended out))
    /\ length (Index.report out) <= stage_count (Index.mkConfig 1 10 10 30).
Proof.
  refine (progressive_run_ends (Index.mkConfig 1 10 10 30) calm_ramp_env
            _ eq_refl _).
  - cbn. lia.
  - intros [|[|[|k]]] Hk;
      [intros H; vm_compute in H; discriminate H ..|].
    exfalso. vm_compute in Hk. lia.
Defined.

(** ** The summary of [stress_test.js] *)

Lemma last_in {A : Type} (l : list A) (d : A) : l <> [] -> In (last l d) l.
Proof.
  induction l as [|a l IH]; [congruence|]. intros _.
  destruct l as [|b l]; [now left|].
  right. apply IH. discriminate.
Qed.

Lemma last_sorted_max (l : list Z) :
  Sorted Z.le l -> forall x, In x l -> (x <= last l 0)%Z.
Proof.
  induction 1 as [|a l Hs IH Hhd]; intros x Hx; [contradiction|].
  destruct l as [|b l].
  - destruct Hx as [<-|[]]. cbn. lia.
  - change (last (a :: b :: l) 0%Z) with (last (b :: l) 0%Z).
    destruct Hx as [<-|Hx]; [|now apply IH].
    inversion Hhd; subst. specialize (IH b (or_introl eq_refl)). lia.
Qed.

Lemma sort_nil l : StressTest.sort l = [] -> l = [].
Proof.
  intros H. pose proof (sort_perm l) as Hp. rewrite H in Hp.
  now apply Permutation_nil, Permutation_sym.
Qed.

Lemma stress_run_stats cfg env :
  let s := stats (StressTest.run_workers cfg env) in
  length (StressTest.latencies s) = StressTest.completed s
  /\ StressTest.totalDuration s = sum_Z (StressTest.latencies s).
Proof.
  cbn zeta. destruct (stress_run_inv cfg env) as [_ _ _ _ _ -> _ _].
  destruct (stress_stats_of_log (answers (StressTest.run_workers cfg env)))
    as (Hlat & Hcomp & _ & Hsum).
  split; [|exact Hsum].
  rewrite Hlat, Hcomp. unfold durations. now rewrite length_map.
Qed.

(** X18.  The maximum latency [runStressTest] prints is the largest of the
    recorded samples: it is one of them and none is larger. *)
Theorem printed_maximum_is_largest_sample (cfg : StressTest.Config)
        (env : StressTest.RunEnv) (sum : StressTest.Summary) :
  StressTest.runStressTest cfg env = Some (StressTest.Ended sum) ->
  0 < StressTest.successful sum ->
  let samples := StressTest.latencies (stats (StressTest.run_workers cfg env))
  in
  In (StressTest.latency_max sum) samples
  /\ forall x, In x samples -> (x <= StressTest.latency_max sum)%Z.
Proof.
  intros Hrun Hpos. cbn zeta.
  apply runStressTest_result in Hrun as (_ & _ & ->).
  unfold StressTest.summary in *.
  cbn [StressTest.latency_max StressTest.successful] in *.
  destruct (stress_run_stats cfg env) as [Hlen _]. cbn zeta in Hlen.
  set (l := StressTest.latencies (stats (StressTest.run_workers cfg env)))
    in *.
  assert (Hne : StressTest.sort l <> []).
  { intros H. apply sort_nil in H. rewrite H in Hlen. cbn in Hlen. lia. }
  split.
  - apply (Permutation_in _ (Permutation_sym (sort_perm l))).
    now apply last_in.
  - intros x Hx. apply last_sorted_max; [apply sort_sorted|].
    now apply (Permutation_in _ (sort_perm l)).
Qed.

Lemma printed_maximum_is_largest_sample_witness :
  In (StressTest.latency_max
        (StressTest.summary 1000 1050
           (stats (StressTest.run_workers demo_config demo_run))))
     (StressTest.latencies
        (stats (StressTest.run_workers demo_config demo_run))).
Proof.
  refine (proj1 (printed_maximum_is_largest_sample demo_config demo_run
                   (StressTest.summary 1000 1050
                      (stats (StressTest.run_workers demo_config demo_run)))
                   eq_refl _)).
  vm_compute. lia.
Defined.

Lemma getPercentile_is_sample (l : list Z) (p : float) (x : Z) :
  l <> [] -> StressTest.getPercentile l p = Some x -> In x l.
Proof.
  unfold StressTest.getPercentile, js_index. intros Hne.
  destruct l as [|a l]; [congruence|]. cbn [length Nat.eqb].
  destruct (Math_floor _) as [i|]; [|discriminate].
  destruct (i <? 0)%Z; [discriminate|].
  apply nth_error_In.
Qed.

(** X19.  Every percentile [runStressTest] prints after at least one
    success is either [undefined] or one of the recorded samples, and so
    never above the printed maximum. *)
Theorem printed_percentiles_are_samples (cfg : StressTest.Config)
        (env : StressTest.RunEnv) (sum : StressTest.Summary) (x : Z) :
  StressTest.runStressTest cfg env = Some (StressTest.Ended sum) ->
  0 < StressTest.successful sum ->
  StressTest.latency_p50 sum = Some x
  \/ StressTest.latency_p95 sum = Some x
  \/ StressTest.latency_p99 sum = Some x ->
  In x (StressTest.latencies (stats (StressTest.run_workers cfg env)))
  /\ (x <= StressTest.latency_max sum)%Z.
Proof.
  intros Hrun Hpos Hx.
  apply runStressTest_result in Hrun as (_ & _ & ->).
  unfold StressTest.summary in *.
  cbn [StressTest.latency_max StressTest.successful StressTest.latency_p50
       StressTest.latency_p95 StressTest.latency_p99] in *.
  destruct (stress_run_stats cfg env) as [Hlen _]. cbn zeta in Hlen.
  set (l := StressTest.latencies (stats (StressTest.run_workers cfg env)))
    in *.
  assert (Hne : StressTest.sort l <> []).
  { intros H. apply sort_nil in H. rewrite H in Hlen. cbn in Hlen. lia. }
  assert (Hin : In x (StressTest.sort l)).
  { destruct Hx as [H|[H|H]];
      exact (getPercentile_is_sample _ _ _ Hne H). }
  split.
  - exact (Permutation_in _ (Permutation_sym (sort_perm l)) Hin).
  - apply last_sorted_max; [apply sort_sorted | exact Hin].
Qed.

Lemma printed_percentiles_are_samples_witness :
  In 30%Z
     (StressTest.latencies
        (stats (StressTest.run_workers demo_config demo_run)))
  /\ (30 <= StressTest.latency_max
              (StressTest.summary 1000 1050
                 (stats (StressTest.run_workers demo_config demo_run))))%Z.
Proof.
  refine (printed_percentiles_are_samples demo_config demo_run
            (StressTest.summary 1000 1050
               (stats (StressTest.run_workers demo_config demo_run)))
            30%Z eq_refl _ (or_introl eq_refl)).
  vm_compute. lia.
Defined.

(** X20.  When no request succeeded, [runStressTest] prints 0 for the
    average, the three percentiles and the maximum: the average divides by
    [completed || 1], never by 0, and the empty sample list is guarded.
    When some succeeded, the average is the sum of the samples over their
    number. *)
Theorem summary_without_success_is_zero (cfg : StressTest.Config)
        (env : StressTest.RunEnv) (sum : StressTest.Summary) :
  StressTest.runStressTest cfg env = Some (StressTest.Ended sum) ->
  (StressTest.successful sum = 0 ->
   StressTest.latency_avg sum = 0%float
   /\ StressTest.latency_p50 sum = Some 0%Z
   /\ StressTest.latency_p95 sum = Some 0%Z
   /\ StressTest.latency_p99 sum = Some 0%Z
   /\ StressTest.latency_max sum = 0%Z)
  /\ (0 < StressTest.successful sum ->
      StressTest.latency_avg sum
      = (num_of_Z
           (sum_Z (StressTest.latencies
                     (stats (StressTest.run_workers cfg env))))
         / num_of_nat (StressTest.successful sum))%float).
Proof.
  intros Hrun. apply runStressTest_result in Hrun as (_ & _ & ->).
  unfold StressTest.summary.
  cbn [StressTest.latency_max StressTest.successful StressTest.latency_p50
       StressTest.latency_p95 StressTest.latency_p99 StressTest.latency_avg].
  destruct (stress_run_stats cfg env) as [Hlen Hsum]. cbn zeta in Hlen, Hsum.
  split.
  - intros Hzero. rewrite Hzero in *.
    destruct (StressTest.latencies (stats (StressTest.run_workers cfg env)));
      [|discriminate].
    rewrite Hsum. repeat split.
  - intros Hpos. rewrite Hsum.
    destruct (StressTest.completed (stats (StressTest.run_workers cfg env)));
      [lia|reflexivity].
Qed.

Lemma summary_without_success_is_zero_witness :
  StressTest.latency_avg
    (StressTest.summary 1000 1050
       (stats (StressTest.run_workers demo_config failing_run)))
  = 0%float
  /\ StressTest.latency_max
       (StressTest.summary 1000 1050
          (stats (StressTest.run_workers demo_config failing_run)))
     = 0%Z.
Proof.
  destruct (proj1 (summary_without_success_is_zero demo_config failing_run
                     (StressTest.summary 1000 1050
                        (stats (StressTest.run_workers demo_config
                                                       failing_run)))
                     eq_refl) eq_refl)
    as (Havg & _ & _ & _ & Hmax).
  split; [exact Havg | exact Hmax].
Defined.

(** ** Random strings and task identifiers *)

Lemma chars_app s t : chars (s ++ t) = chars s ++ chars t.
Proof.
  unfold chars. induction s as [|a s IH]; cbn; [reflexivity|].
  now rewrite IH.
Qed.

Lemma length_chars s : length (chars s) = String.length s.
Proof. unfold chars. induction s as [|a s IH]; cbn; auto. Qed.

Lemma get_in_chars s n a : String.get n s = Some a -> In a (chars s).
Proof.
  unfold chars. revert n; induction s as [|b s IH]; intros [|n] H; cbn in *;
    try discriminate.
  - injection H as ->. now left.
  - right. eauto.
Qed.

(** [charAt] gives nothing or one character of the string. *)
Lemma charAt_cases s x :
  Payload.charAt s x = EmptyString
  \/ exists a, Payload.charAt s x = String a EmptyString /\ In a (chars s).
Proof.
  unfold Payload.charAt.
  destruct (Payload.position x) as [i|]; [|now left].
  destruct (i <? 0)%Z; [now left|].
  destruct (String.get (Z.to_nat i) s) as [a|] eqn:Hget; [|now left].
  right. exists a. split; [reflexivity|]. eapply get_in_chars, Hget.
Qed.

(** X21.  [generateRandomString(length)] draws exactly [length] random
    numbers and appends at most one character per draw, always one of the
    62 letters and digits of its alphabet; the string it returns has
    exactly [length] characters when every draw designates a position of
    the alphabet. *)
Theorem random_string_shape (len : nat) (random : Payload.Random)
        (drawn : nat) (result : string) :
  exists suffix,
    Payload.generateRandomString len random drawn result
    = ((result ++ suffix)%string, drawn + len)
    /\ String.length suffix <= len
    /\ (forall a, In a (chars suffix) -> In a (chars Payload.characters))
    /\ ((forall k, k < len ->
           Payload.charAt Payload.characters
             (Payload.floor_num
                (random (drawn + k)%nat
                 * num_of_nat (String.length Payload.characters))%float)
           <> EmptyString) ->
        String.length suffix = len).
Proof.
  revert drawn result. induction len as [|n IH]; intros drawn result.
  - exists EmptyString. cbn. rewrite Nat.add_0_r.
    assert (H : (result ++ "")%string = result)
      by (clear; induction result as [|a r IHr]; cbn; congruence).
    rewrite H. repeat split; auto. intros a [].
  - cbn [Payload.generateRandomString].
    set (ch := Payload.charAt Payload.characters _).
    destruct (IH (S drawn) (result ++ ch)%string)
      as (suffix & Heq & Hlen & Hchars & Hfull).
    exists (ch ++ suffix)%string. rewrite Heq.
    assert (Hassoc : ((result ++ ch) ++ suffix)%string
                     = (result ++ ch ++ suffix)%string).
    { clear. induction result as [|a r IHr]; cbn; congruence. }
    rewrite Hassoc. replace (S drawn + n) with (drawn + S n) by lia.
    split; [reflexivity|].
    assert (Hshift : forall k, random (S drawn + k) = random (drawn + S k))
      by (intros k; f_equal; lia).
    destruct (charAt_cases Payload.characters
                (Payload.floor_num
                   (random drawn
                    * num_of_nat (String.length Payload.characters))%float))
      as [Hch|(a & Hch & Ha)]; fold ch in Hch; rewrite Hch in *.
    + cbn [String.append]. split; [lia|]. split; [exact Hchars|].
      intros Hall. exfalso. apply (Hall 0); [lia|].
      rewrite Nat.add_0_r. exact Hch.
    + cbn [String.append String.length]. split; [lia|]. split.
      * intros b [<-|Hb]; [exact Ha | now apply Hchars].
      * intros Hall. f_equal. apply Hfull. intros k Hk.
        rewrite Hshift. apply Hall. lia.
Qed.

Lemma random_string_shape_witness :
  exists suffix,
    Payload.generateRandomString 5 demo_random 0 "User "%string
    = (("User " ++ suffix)%string, 0 + 5)
    /\ String.length suffix = 5.
Proof.
  destruct (random_string_shape 5 demo_random 0 "User "%string)
    as (suffix & Heq & _ & _ & Hfull).
  exists suffix. split; [exact Heq|].
  apply Hfull.
  intros [|[|[|[|[|k]]]]] Hk; [vm_compute; discriminate ..|].
  exfalso. lia.
Defined.

Example random_string_of_demo_source :
  Payload.generateRandomString 5 demo_random 0 "User "%string
  = ("User Af9aP"%string, 5).
Proof. reflexivity. Qed.

Lemma decimal_digits_only (d : Decimal.uint) :
  ~ In "_"%char (chars (NilEmpty.string_of_uint d)).
Proof.
  unfold chars.
  induction d; cbn; intros H; try (destruct H as [H|H]; [discriminate|]);
    auto.
Qed.

Lemma split_at_underscore (a a' b b' : string) :
  ~ In "_"%char (chars a) -> ~ In "_"%char (chars a') ->
  (a ++ String "_" b)%string = (a' ++ String "_" b')%string ->
  a = a' /\ b = b'.
Proof.
  unfold chars. revert a'; induction a as [|x a IH]; intros [|x' a'] Ha Ha' H;
    cbn in *.
  - injection H as ->. now split.
  - injection H as <- _. exfalso. apply Ha'. now left.
  - injection H as -> _. exfalso. apply Ha. now left.
  - injection H as -> H.
    destruct (IH a') as [-> ->]; auto.
Qed.

Lemma decimal_inj n n' : Payload.decimal n = Payload.decimal n' -> n = n'.
Proof.
  unfold Payload.decimal. intros H.
  apply DecimalNat.Unsigned.to_uint_inj.
  pose proof (NilEmpty.usu (Nat.to_uint n)) as H1.
  pose proof (NilEmpty.usu (Nat.to_uint n')) as H2.
  rewrite H in H1. congruence.
Qed.

Lemma decimal_Z_inj z z' :
  Payload.decimal_Z z = Payload.decimal_Z z' -> z = z'.
Proof.
  unfold Payload.decimal_Z. intros H.
  apply DecimalZ.to_int_inj.
  pose proof (NilEmpty.isi (Z.to_int z)) as H1.
  pose proof (NilEmpty.isi (Z.to_int z')) as H2.
  rewrite H in H1. congruence.
Qed.

(** X22.  Task identifiers are unambiguous: two identifiers built by
    [index.js] are equal only if concurrency, task index and clock reading
    are all equal, so no two requests of a progressive run whose stages
    differ in concurrency, or whose task indices differ within a stage,
    share an identifier.  The same holds for the identifiers of
    [stress_test.js] and their task index and clock reading. *)
Theorem task_identifiers_are_unambiguous :
  (forall c i t c' i' t',
      Payload.userId c i t = Payload.userId c' i' t' ->
      c = c' /\ i = i' /\ t = t')
  /\ (forall i t i' t',
         Payload.stress_userId i t = Payload.stress_userId i' t' ->
         i = i' /\ t = t').
Proof.
  split.
  - intros c i t c' i' t' H. unfold Payload.userId in H.
    cbn [String.append] in H. injection H as H.
    apply split_at_underscore in H as [Hc H];
      try apply decimal_digits_only.
    apply split_at_underscore in H as [Hi Ht];
      try apply decimal_digits_only.
    repeat split; auto using decimal_inj, decimal_Z_inj.
  - intros i t i' t' H. unfold Payload.stress_userId in H.
    cbn [String.append] in H. injection H as H.
    apply split_at_underscore in H as [Hi Ht];
      try apply decimal_digits_only.
    split; auto using decimal_inj, decimal_Z_inj.
Qed.

Lemma task_identifiers_are_unambiguous_witness :
  10 = 10 /\ 7 = 7 /\ 1700000000000%Z = 1700000000000%Z.
Proof.
  exact (proj1 task_identifiers_are_unambiguous
               10 7 1700000000000%Z 10 7 1700000000000%Z eq_refl).
Defined.

Example task_identifier_of_a_request :
  Payload.userId 10 7 1700000000000 = "user_10_7_1700000000000"%string
  /\ Payload.stress_userId 7 1700000000000 = "user_7_1700000000000"%string.
Proof. split; reflexivity. Qed.
